(** * AudioVisualizer: a shallow embedding of the audio graph code

    The development follows the JavaScript modules of the repository:

    - [audioContext.js]  the shared context and analyser node;
    - [utils.js]         [ensureAudioContextActive], [ensureAnalyserOutput];
    - [toneGenerator.js] [createWhiteNoise], [createPinkNoise], [playTone],
                         [stopTone];
    - [visualizer.js]    [visualize] and the three [draw] loops;
    - [mp3Handler.js]    [setupAudioNodes], [stopMp3], [clearMp3];
    - [script.js]        the event listeners that call the above.

    Module-level [let] variables, the audio graph, the media element and the
    host's animation-frame queue are fields of one [World] record which every
    function threads explicitly.  JavaScript exceptions are the [Throw] result
    of a small state-and-error monad; [try]/[catch]/[finally] are combinators
    of that monad.  Everything the browser decides (whether a Web Audio call
    throws, what [Math.random] returns, the sample rate) is collected in a
    [Host] record over which the theorems quantify.

    An [async] function is run to completion in one go: the only suspension
    points are [await]s on host promises, and no claim below depends on what
    another handler does in between.  [console.log] lines carry no state and
    are left out; [console.error], [console.warn] and [alert] are recorded. *)

From Stdlib Require Import QArith Qcanon.
From stdpp Require Import base numbers option list gmap strings.

Local Open Scope string_scope.
Local Open Scope list_scope.

(** ** JavaScript numbers

    A [number] is a double: NaN, an infinity, or a finite value, which is a
    rational.  Only comparison with zero is needed on frequencies, and that
    is exact on the rational value. *)

Inductive number : Type :=
| NaN
| PosInfinity
| NegInfinity
| Finite (q : Qc).

Definition isNaN (x : number) : bool :=
  match x with NaN => true | _ => false end.

(** [x <= 0]: every comparison with NaN is false. *)
Definition le_zero (x : number) : bool :=
  match x with
  | NaN => false
  | PosInfinity => false
  | NegInfinity => true
  | Finite q => bool_decide (q ≤ 0)%Qc
  end.

(** [x > 0], for stating the claims. *)
Definition gt_zero (x : number) : bool :=
  match x with
  | NaN => false
  | PosInfinity => true
  | NegInfinity => false
  | Finite q => bool_decide (0 < q)%Qc
  end.

(** [isFinite x]. *)
Definition isFinite (x : number) : bool :=
  match x with Finite _ => true | _ => false end.

(** [parseFloat] applied to a value that is already a number converts it to
    a string and parses it back, which gives the same number. *)
Definition parseFloat (x : number) : number := x.

(** ** The host *)

Definition NodeId := nat.

(** The three rendering loops of [visualizer.js].  A queued callback is
    identified by its loop: the private variables of the closure (the data
    array, the rotation of the kaleidoscopes) have no part in scheduling. *)
Inductive DrawKind : Type := BarGraph | Kaleidoscope | KaleidoscopeB.

Global Instance DrawKind_eq_dec : EqDecision DrawKind.
Proof. solve_decision. Defined.

(** Every call the code makes into the browser. *)
Inductive HostCall : Type :=
| Resume                                  (* audioContext.resume() *)
| ConnectAnalyserToDestination            (* analyser.connect(audioContext.destination) *)
| CreateOscillator
| SetType (waveform : string)             (* oscillator.type = waveform *)
| SetValueAtTime (n : NodeId) (f : number) (* oscillator.frequency.setValueAtTime *)
| CreateBuffer (length : nat)
| CreateBufferSource
| CreateMediaElementSource
| Connect (n : NodeId)                    (* n.connect(analyser) *)
| Disconnect (n : NodeId)                 (* n.disconnect(analyser) *)
| Start (n : NodeId)
| Stop (n : NodeId)
| Play | Pause | Load
| RevokeObjectURL (url : string)
| RequestAnimationFrame
| CancelAnimationFrame (id : nat)
| GetByteFrequencyData
| Paint (k : DrawKind)                    (* the canvas statements of one frame *)
| ClearRect.

(** What the browser decides: which calls throw, the stream of values
    [Math.random] returns, and the context's sample rate. *)
Record Host : Type := {
  throws : HostCall -> bool;
  random : nat -> Qc;
  sampleRate : nat;
}.

(** ** Errors and the observable trace *)

Inductive Error : Type :=
| JsError (message : string)              (* new Error(message) *)
| HostException (c : HostCall).           (* an exception of the browser *)

(** [error.message]; the text of a browser exception stands for whatever
    the browser says. *)
Definition message (e : Error) : string :=
  match e with
  | JsError m => m
  | HostException _ => "host exception"
  end.

(** The two functions of [utils.js], whose calls are recorded. *)
Inductive Fn : Type :=
| FnEnsureAudioContextActive
| FnEnsureAnalyserOutput.

Inductive Event : Type :=
| Enter (f : Fn)                          (* a function of utils.js is entered *)
| Did (c : HostCall)                      (* a host call that completed *)
| ConsoleError (msg : string)
| ConsoleWarn (msg : string)
| Alert (msg : string).

(** ** The world *)

Inductive CtxState : Type := suspended | running | closed.

Global Instance CtxState_eq_dec : EqDecision CtxState.
Proof. solve_decision. Defined.

Inductive Producer : Type :=
| OscillatorNode (type : string) (frequency : number)
| AudioBufferSourceNode (buffer : option (list Qc)) (loop : bool)
| MediaElementAudioSourceNode.

Record Node : Type := {
  producer : Producer;
  started : bool;
  stopped : bool;
}.

(** The shared analyser of [audioContext.js]: [fftSize], whether it is
    connected to the destination, and which nodes are connected into it. *)
Record AnalyserNode : Type := {
  fftSize : nat;
  toDestination : bool;
  inputs : gset NodeId;
}.


(** The [<audio id="audio-player">] element. *)
Record AudioPlayer : Type := {
  src : string;
  paused : bool;
  currentTime : Qc;
}.

Record World : Type := {
  (* audioContext.js *)
  ctxState : CtxState;
  analyser : option AnalyserNode;
  nodes : gmap NodeId Node;
  nextNode : NodeId;
  (* toneGenerator.js *)
  source : option NodeId;
  (* mp3Handler.js *)
  mp3Source : option NodeId;
  mediaElementSourceCreated : bool;
  audioPlayer : AudioPlayer;
  (* visualizer.js *)
  currentVisualizerAnimation : option nat;
  visualizerType : string;
  (* the browser's animation frame queue: request id and callback *)
  frames : list (nat * DrawKind);
  nextFrame : nat;
  (* the checked radio buttons of the page *)
  waveformInput : option string;
  noiseTypeInput : option string;
  (* how many values Math.random has handed out *)
  randomCalls : nat;
  (* what happened, newest first *)
  trace : list Event;
}.

Definition set_ctxState (v : CtxState) (w : World) : World :=
  {| ctxState := v; analyser := analyser w; nodes := nodes w;
     nextNode := nextNode w; source := source w; mp3Source := mp3Source w;
     mediaElementSourceCreated := mediaElementSourceCreated w;
     audioPlayer := audioPlayer w;
     currentVisualizerAnimation := currentVisualizerAnimation w;
     visualizerType := visualizerType w; frames := frames w;
     nextFrame := nextFrame w; waveformInput := waveformInput w;
     noiseTypeInput := noiseTypeInput w; randomCalls := randomCalls w;
     trace := trace w |}.

Definition set_analyser (v : option AnalyserNode) (w : World) : World :=
  {| ctxState := ctxState w; analyser := v; nodes := nodes w;
     nextNode := nextNode w; source := source w; mp3Source := mp3Source w;
     mediaElementSourceCreated := mediaElementSourceCreated w;
     audioPlayer := audioPlayer w;
     currentVisualizerAnimation := currentVisualizerAnimation w;
     visualizerType := visualizerType w; frames := frames w;
     nextFrame := nextFrame w; waveformInput := waveformInput w;
     noiseTypeInput := noiseTypeInput w; randomCalls := randomCalls w;
     trace := trace w |}.

Definition set_nodes (v : gmap NodeId Node) (w : World) : World :=
  {| ctxState := ctxState w; analyser := analyser w; nodes := v;
     nextNode := nextNode w; source := source w; mp3Source := mp3Source w;
     mediaElementSourceCreated := mediaElementSourceCreated w;
     audioPlayer := audioPlayer w;
     currentVisualizerAnimation := currentVisualizerAnimation w;
     visualizerType := visualizerType w; frames := frames w;
     nextFrame := nextFrame w; waveformInput := waveformInput w;
     noiseTypeInput := noiseTypeInput w; randomCalls := randomCalls w;
     trace := trace w |}.

Definition set_nextNode (v : NodeId) (w : World) : World :=
  {| ctxState := ctxState w; analyser := analyser w; nodes := nodes w;
     nextNode := v; source := source w; mp3Source := mp3Source w;
     mediaElementSourceCreated := mediaElementSourceCreated w;
     audioPlayer := audioPlayer w;
     currentVisualizerAnimation := currentVisualizerAnimation w;
     visualizerType := visualizerType w; frames := frames w;
     nextFrame := nextFrame w; waveformInput := waveformInput w;
     noiseTypeInput := noiseTypeInput w; randomCalls := randomCalls w;
     trace := trace w |}.

Definition set_source (v : option NodeId) (w : World) : World :=
  {| ctxState := ctxState w; analyser := analyser w; nodes := nodes w;
     nextNode := nextNode w; source := v; mp3Source := mp3Source w;
     mediaElementSourceCreated := mediaElementSourceCreated w;
     audioPlayer := audioPlayer w;
     currentVisualizerAnimation := currentVisualizerAnimation w;
     visualizerType := visualizerType w; frames := frames w;
     nextFrame := nextFrame w; waveformInput := waveformInput w;
     noiseTypeInput := noiseTypeInput w; randomCalls := randomCalls w;
     trace := trace w |}.

Definition set_mp3Source (v : option NodeId) (w : World) : World :=
  {| ctxState := ctxState w; analyser := analyser w; nodes := nodes w;
     nextNode := nextNode w; source := source w; mp3Source := v;
     mediaElementSourceCreated := mediaElementSourceCreated w;
     audioPlayer := audioPlayer w;
     currentVisualizerAnimation := currentVisualizerAnimation w;
     visualizerType := visualizerType w; frames := frames w;
     nextFrame := nextFrame w; waveformInput := waveformInput w;
     noiseTypeInput := noiseTypeInput w; randomCalls := randomCalls w;
     trace := trace w |}.

Definition set_mediaElementSourceCreated (v : bool) (w : World) : World :=
  {| ctxState := ctxState w; analyser := analyser w; nodes := nodes w;
     nextNode := nextNode w; source := source w; mp3Source := mp3Source w;
     mediaElementSourceCreated := v;
     audioPlayer := audioPlayer w;
     currentVisualizerAnimation := currentVisualizerAnimation w;
     visualizerType := visualizerType w; frames := frames w;
     nextFrame := nextFrame w; waveformInput := waveformInput w;
     noiseTypeInput := noiseTypeInput w; randomCalls := randomCalls w;
     trace := trace w |}.

Definition set_audioPlayer (v : AudioPlayer) (w : World) : World :=
  {| ctxState := ctxState w; analyser := analyser w; nodes := nodes w;
     nextNode := nextNode w; source := source w; mp3Source := mp3Source w;
     mediaElementSourceCreated := mediaElementSourceCreated w;
     audioPlayer := v;
     currentVisualizerAnimation := currentVisualizerAnimation w;
     visualizerType := visualizerType w; frames := frames w;
     nextFrame := nextFrame w; waveformInput := waveformInput w;
     noiseTypeInput := noiseTypeInput w; randomCalls := randomCalls w;
     trace := trace w |}.

Definition set_currentVisualizerAnimation (v : option nat) (w : World) : World :=
  {| ctxState := ctxState w; analyser := analyser w; nodes := nodes w;
     nextNode := nextNode w; source := source w; mp3Source := mp3Source w;
     mediaElementSourceCreated := mediaElementSourceCreated w;
     audioPlayer := audioPlayer w;
     currentVisualizerAnimation := v;
     visualizerType := visualizerType w; frames := frames w;
     nextFrame := nextFrame w; waveformInput := waveformInput w;
     noiseTypeInput := noiseTypeInput w; randomCalls := randomCalls w;
     trace := trace w |}.

Definition set_visualizerType (v : string) (w : World) : World :=
  {| ctxState := ctxState w; analyser := analyser w; nodes := nodes w;
     nextNode := nextNode w; source := source w; mp3Source := mp3Source w;
     mediaElementSourceCreated := mediaElementSourceCreated w;
     audioPlayer := audioPlayer w;
     currentVisualizerAnimation := currentVisualizerAnimation w;
     visualizerType := v; frames := frames w;
     nextFrame := nextFrame w; waveformInput := waveformInput w;
     noiseTypeInput := noiseTypeInput w; randomCalls := randomCalls w;
     trace := trace w |}.

Definition set_frames (v : list (nat * DrawKind)) (w : World) : World :=
  {| ctxState := ctxState w; analyser := analyser w; nodes := nodes w;
     nextNode := nextNode w; source := source w; mp3Source := mp3Source w;
     mediaElementSourceCreated := mediaElementSourceCreated w;
     audioPlayer := audioPlayer w;
     currentVisualizerAnimation := currentVisualizerAnimation w;
     visualizerType := visualizerType w; frames := v;
     nextFrame := nextFrame w; waveformInput := waveformInput w;
     noiseTypeInput := noiseTypeInput w; randomCalls := randomCalls w;
     trace := trace w |}.

Definition set_nextFrame (v : nat) (w : World) : World :=
  {| ctxState := ctxState w; analyser := analyser w; nodes := nodes w;
     nextNode := nextNode w; source := source w; mp3Source := mp3Source w;
     mediaElementSourceCreated := mediaElementSourceCreated w;
     audioPlayer := audioPlayer w;
     currentVisualizerAnimation := currentVisualizerAnimation w;
     visualizerType := visualizerType w; frames := frames w;
     nextFrame := v; waveformInput := waveformInput w;
     noiseTypeInput := noiseTypeInput w; randomCalls := randomCalls w;
     trace := trace w |}.

Definition set_randomCalls (v : nat) (w : World) : World :=
  {| ctxState := ctxState w; analyser := analyser w; nodes := nodes w;
     nextNode := nextNode w; source := source w; mp3Source := mp3Source w;
     mediaElementSourceCreated := mediaElementSourceCreated w;
     audioPlayer := audioPlayer w;
     currentVisualizerAnimation := currentVisualizerAnimation w;
     visualizerType := visualizerType w; frames := frames w;
     nextFrame := nextFrame w; waveformInput := waveformInput w;
     noiseTypeInput := noiseTypeInput w; randomCalls := v;
     trace := trace w |}.

Definition set_trace (v : list Event) (w : World) : World :=
  {| ctxState := ctxState w; analyser := analyser w; nodes := nodes w;
     nextNode := nextNode w; source := source w; mp3Source := mp3Source w;
     mediaElementSourceCreated := mediaElementSourceCreated w;
     audioPlayer := audioPlayer w;
     currentVisualizerAnimation := currentVisualizerAnimation w;
     visualizerType := visualizerType w; frames := frames w;
     nextFrame := nextFrame w; waveformInput := waveformInput w;
     noiseTypeInput := noiseTypeInput w; randomCalls := randomCalls w;
     trace := v |}.

(** ** The monad: state plus exceptions

    A thrown exception keeps the state reached so far, as in JavaScript. *)

Inductive Res (A : Type) : Type :=
| Ok (a : A)
| Throw (e : Error).
Arguments Ok {A} a.
Arguments Throw {A} e.

Definition M (A : Type) : Type := World -> Res A * World.

Definition ret {A} (a : A) : M A := fun w => (Ok a, w).

Definition bind {A B} (m : M A) (k : A -> M B) : M B :=
  fun w =>
    match m w with
    | (Ok a, w') => k a w'
    | (Throw e, w') => (Throw e, w')
    end.

Definition throw {A} (e : Error) : M A := fun w => (Throw e, w).

(** [try { m } catch (error) { h error }] *)
Definition tryCatch {A} (m : M A) (h : Error -> M A) : M A :=
  fun w =>
    match m w with
    | (Ok a, w') => (Ok a, w')
    | (Throw e, w') => h e w'
    end.

(** [try { m } finally { f }] where [f] completes normally. *)
Definition tryFinally {A} (m : M A) (f : M unit) : M A :=
  fun w =>
    match m w with
    | (r, w') =>
        match f w' with
        | (Ok _, w'') => (r, w'')
        | (Throw e, w'') => (Throw e, w'')
        end
    end.

Definition get {A} (f : World -> A) : M A := fun w => (Ok (f w), w).
Definition modify (f : World -> World) : M unit := fun w => (Ok tt, f w).

Declare Scope js_scope.
Delimit Scope js_scope with js.
Notation "x <- m ;; k" := (bind m (fun x => k))
  (at level 100, m at next level, right associativity) : js_scope.
Notation "m ;; k" := (bind m (fun _ => k))
  (at level 100, right associativity) : js_scope.
Local Open Scope js_scope.

Definition emit (e : Event) : M unit :=
  modify (fun w => set_trace (e :: trace w) w).

Definition consoleError (msg : string) : M unit := emit (ConsoleError msg).
Definition consoleWarn (msg : string) : M unit := emit (ConsoleWarn msg).
Definition alert (msg : string) : M unit := emit (Alert msg).

Definition exec {A} (m : M A) (w : World) : World := snd (m w).
Definition result {A} (m : M A) (w : World) : Res A := fst (m w).

(** The events a run added to the trace, oldest first. *)
Definition emitted (w w' : World) : list Event :=
  rev (take (length (trace w') - length (trace w)) (trace w')).

(** ** Arithmetic of the host

    An arithmetic operation on doubles is the exact operation followed by
    rounding to the nearest double; a store into a [Float32Array] rounds to
    the nearest single.  A decimal literal denotes the nearest double.  The
    two rounding functions are parameters; [Rounding] collects what the
    proofs use of them, all of which round-to-nearest has. *)

Record Arith : Type := {
  double : Qc -> Qc;
  float32 : Qc -> Qc;
}.

Record Rounding (r : Qc -> Qc) : Prop := {
  rounding_mono : forall x y : Qc, (x ≤ y)%Qc -> (r x ≤ r y)%Qc;
  rounding_odd : forall x : Qc, r (- x)%Qc = (- r x)%Qc;
  rounding_0 : r 0%Qc = 0%Qc;
  rounding_1 : r 1%Qc = 1%Qc;
  rounding_2 : r 2%Qc = 2%Qc;
}.

(** The decimal [n / d]. *)
Definition dec (n : Z) (d : positive) : Qc := Q2Qc (n # d).

Section Floats.
Context (ar : Arith).

Definition lit (q : Qc) : Qc := double ar q.
Definition fadd (x y : Qc) : Qc := double ar (x + y)%Qc.
Definition fsub (x y : Qc) : Qc := double ar (x - y)%Qc.
Definition fmul (x y : Qc) : Qc := double ar (x * y)%Qc.
Definition fneg (x : Qc) : Qc := (- x)%Qc.
End Floats.

(** ** The program *)

Section Program.
Context (host : Host) (ar : Arith).

(** A host call throws when the host says so and is recorded otherwise. *)
Definition hostCall (c : HostCall) : M unit :=
  fun w =>
    if throws host c then (Throw (HostException c), w)
    else emit (Did c) w.

Definition updateNode (n : NodeId) (f : Node -> Node) : M unit :=
  modify (fun w => set_nodes (alter f n (nodes w)) w).

Definition newNode (p : Producer) : M NodeId :=
  n <- get nextNode ;;
  modify (fun w =>
    set_nextNode (S n)
      (set_nodes (<[n := {| producer := p; started := false; stopped := false |}]> (nodes w)) w)) ;;
  ret n.

(** *** Web Audio calls *)

(** [audioContext.resume()] *)
Definition resume : M unit :=
  hostCall Resume ;;
  modify (set_ctxState running).

(** [analyser.connect(audioContext.destination)] *)
Definition connectToDestination (a : AnalyserNode) : M unit :=
  hostCall ConnectAnalyserToDestination ;;
  modify (set_analyser
    (Some {| fftSize := fftSize a; toDestination := true; inputs := inputs a |})).

(** [n.connect(analyser)]; a null [analyser] makes the host throw. *)
Definition connect (n : NodeId) : M unit :=
  a <- get analyser ;;
  match a with
  | None => throw (HostException (Connect n))
  | Some a =>
      hostCall (Connect n) ;;
      modify (set_analyser
        (Some {| fftSize := fftSize a; toDestination := toDestination a;
                 inputs := {[ n ]} ∪ inputs a |}))
  end.

(** [n.disconnect(analyser)] *)
Definition disconnect (n : NodeId) : M unit :=
  a <- get analyser ;;
  match a with
  | None => throw (HostException (Disconnect n))
  | Some a =>
      hostCall (Disconnect n) ;;
      modify (set_analyser
        (Some {| fftSize := fftSize a; toDestination := toDestination a;
                 inputs := inputs a ∖ {[ n ]} |}))
  end.

Definition start (n : NodeId) : M unit :=
  hostCall (Start n) ;;
  updateNode n (fun nd =>
    {| producer := producer nd; started := true; stopped := stopped nd |}).

Definition stop (n : NodeId) : M unit :=
  hostCall (Stop n) ;;
  updateNode n (fun nd =>
    {| producer := producer nd; started := started nd; stopped := true |}).

(** [audioContext.createOscillator()]: a sine at 440 Hz until configured. *)
Definition createOscillator : M NodeId :=
  hostCall CreateOscillator ;;
  newNode (OscillatorNode "sine" (Finite (Qc_of_Z 440))).

Definition isOscillatorType (s : string) : bool :=
  String.eqb s "sine" || String.eqb s "square" ||
  String.eqb s "sawtooth" || String.eqb s "triangle".

(** [oscillator.type = waveform]: the setter ignores a string that is not
    one of the enumeration's values. *)
Definition setType (n : NodeId) (waveform : string) : M unit :=
  hostCall (SetType waveform) ;;
  updateNode n (fun nd =>
    match producer nd with
    | OscillatorNode t f =>
        {| producer := OscillatorNode (if isOscillatorType waveform then waveform else t) f;
           started := started nd; stopped := stopped nd |}
    | _ => nd
    end).

(** [oscillator.frequency.setValueAtTime(freq, audioContext.currentTime)] *)
Definition setValueAtTime (n : NodeId) (freq : number) : M unit :=
  hostCall (SetValueAtTime n freq) ;;
  updateNode n (fun nd =>
    match producer nd with
    | OscillatorNode t _ =>
        {| producer := OscillatorNode t freq;
           started := started nd; stopped := stopped nd |}
    | _ => nd
    end).

(** [audioContext.createBuffer(1, length, sampleRate)] followed by
    [getChannelData(0)]: the channel's samples, all zero.  The array is the
    buffer's own storage, so what the loop leaves in it is the buffer. *)
Definition createBuffer (length : nat) : M (list Qc) :=
  hostCall (CreateBuffer length) ;;
  ret (replicate length 0%Qc).

Definition createBufferSource : M NodeId :=
  hostCall CreateBufferSource ;;
  newNode (AudioBufferSourceNode None false).

(** [node.buffer = b] *)
Definition setBuffer (n : NodeId) (b : list Qc) : M unit :=
  updateNode n (fun nd =>
    match producer nd with
    | AudioBufferSourceNode _ l =>
        {| producer := AudioBufferSourceNode (Some b) l;
           started := started nd; stopped := stopped nd |}
    | _ => nd
    end).

(** [node.loop = l] *)
Definition setLoop (n : NodeId) (l : bool) : M unit :=
  updateNode n (fun nd =>
    match producer nd with
    | AudioBufferSourceNode b _ =>
        {| producer := AudioBufferSourceNode b l;
           started := started nd; stopped := stopped nd |}
    | _ => nd
    end).

(** [Math.random()] *)
Definition mathRandom : M Qc :=
  fun w => (Ok (random host (randomCalls w)), set_randomCalls (S (randomCalls w)) w).

(** *** utils.js *)

Definition ensureAudioContextActive : M unit :=
  emit (Enter FnEnsureAudioContextActive) ;;
  tryCatch
    (st <- get ctxState ;;
     if bool_decide (st = suspended) then resume else ret tt)
    (fun error =>
       consoleError "Failed to resume AudioContext:" ;;
       alert "Audio playback is blocked. Please interact with the page to enable sound." ;;
       throw (JsError "AudioContext could not be resumed.")).

Definition ensureAnalyserOutput : M unit :=
  emit (Enter FnEnsureAnalyserOutput) ;;
  tryCatch
    (a <- get analyser ;;
     st <- get ctxState ;;
     match a with
     | None => throw (JsError "Analyser node is invalid or closed.")
     | Some a =>
         if bool_decide (st = closed)
         then throw (JsError "Analyser node is invalid or closed.")
         else connectToDestination a
     end)
    (fun error =>
       consoleError "Error ensuring analyser output:" ;;
       alert ("Error connecting analyser to output: " ++ message error)).

(** *** visualizer.js *)

(** [requestAnimationFrame(draw)]: the callback joins the queue under a
    fresh id. *)
Definition requestAnimationFrame (k : DrawKind) : M nat :=
  hostCall RequestAnimationFrame ;;
  id <- get nextFrame ;;
  modify (fun w => set_nextFrame (S id) (set_frames (frames w ++ [(id, k)]) w)) ;;
  ret id.

(** [cancelAnimationFrame(h)]: [null] converts to 0, which is no request. *)
Definition cancelAnimationFrame (h : option nat) : M unit :=
  let id := match h with Some id => id | None => 0 end in
  emit (Did (CancelAnimationFrame id)) ;;
  modify (fun w => set_frames (filter (fun p => p.1 ≠ id) (frames w)) w).

(** Truthiness of [currentVisualizerAnimation]. *)
Definition truthy (h : option nat) : bool :=
  match h with
  | Some (S _) => true
  | _ => false
  end.

Definition frameErrorMessage (k : DrawKind) : string :=
  match k with
  | BarGraph => "Error in bar graph animation frame:"
  | Kaleidoscope => "Error in kaleidoscope animation frame:"
  | KaleidoscopeB => "Error in kaleidoscope B animation frame:"
  end.

(** The inner [draw] of each of the three loops: schedule the next frame,
    read the spectrum, paint; on an exception log it and cancel the frame
    held in [currentVisualizerAnimation]. *)
Definition draw (k : DrawKind) : M unit :=
  tryCatch
    (id <- requestAnimationFrame k ;;
     modify (set_currentVisualizerAnimation (Some id)) ;;
     hostCall GetByteFrequencyData ;;
     hostCall (Paint k))
    (fun drawError =>
       consoleError (frameErrorMessage k) ;;
       h <- get currentVisualizerAnimation ;;
       cancelAnimationFrame h).

Definition drawBarGraph (analyser : option AnalyserNode) : M unit :=
  match analyser with
  | None => consoleError "No analyser provided to drawBarGraph"
  | Some _ =>
      tryCatch (draw BarGraph)
        (fun error => consoleError "Error setting up bar graph visualization:")
  end.

Definition drawKaleidoscope (analyser : option AnalyserNode) : M unit :=
  match analyser with
  | None => consoleError "No analyser provided to drawKaleidoscope"
  | Some _ =>
      tryCatch (draw Kaleidoscope)
        (fun error => consoleError "Error setting up kaleidoscope visualization:")
  end.

Definition drawKaleidoscopeB (analyser : option AnalyserNode) : M unit :=
  match analyser with
  | None => consoleError "No analyser provided to drawKaleidoscopeB"
  | Some _ =>
      tryCatch (draw KaleidoscopeB)
        (fun error => consoleError "Error setting up kaleidoscope B visualization:")
  end.

Definition visualize : M unit :=
  tryCatch
    (h <- get currentVisualizerAnimation ;;
     (if truthy h then cancelAnimationFrame h else ret tt) ;;
     t <- get visualizerType ;;
     analyserNode <- get analyser ;;
     if String.eqb t "bar" then drawBarGraph analyserNode
     else if String.eqb t "kaleidoscope" then drawKaleidoscope analyserNode
     else if String.eqb t "kaleidoscope-b" then drawKaleidoscopeB analyserNode
     else hostCall ClearRect)
    (fun error => consoleError "Error in visualize:").

(** The browser runs the oldest queued callback. *)
Definition fireFrame : M unit :=
  fs <- get frames ;;
  match fs with
  | [] => ret tt
  | (_, k) :: rest => modify (set_frames rest) ;; draw k
  end.

(** The [change] listeners of the visualizer select: [visualizer.js]
    stores the value, then [script.js] calls [visualize]. *)
Definition onVisualizerChange (value : string) : M unit :=
  modify (set_visualizerType value) ;;
  tryCatch visualize (fun error => consoleError "Error changing visualizer:").


(** *** toneGenerator.js *)

(** The [for] loop of [createWhiteNoise], with [n] iterations left at index
    [i]: [output[i] = Math.random() * 2 - 1]. *)
Fixpoint whiteNoiseLoop (n i : nat) (output : list Qc) : M (list Qc) :=
  match n with
  | 0 => ret output
  | S n' =>
      r <- mathRandom ;;
      whiteNoiseLoop n' (S i)
        (<[i := float32 ar (fsub ar (fmul ar r (lit ar 2)) (lit ar 1))]> output)
  end.

Definition createWhiteNoise : M NodeId :=
  let bufferSize := 2 * sampleRate host in
  noiseBuffer <- createBuffer bufferSize ;;
  output <- whiteNoiseLoop bufferSize 0 noiseBuffer ;;
  whiteNoise <- createBufferSource ;;
  setBuffer whiteNoise output ;;
  setLoop whiteNoise true ;;
  ret whiteNoise.

(** The filter variables [b0 .. b5] of [createPinkNoise] ([b6] is declared
    and zeroed there but never read). *)
Record PinkState : Type := {
  b0 : Qc; b1 : Qc; b2 : Qc; b3 : Qc; b4 : Qc; b5 : Qc;
}.

Definition pinkZero : PinkState :=
  {| b0 := 0; b1 := 0; b2 := 0; b3 := 0; b4 := 0; b5 := 0 |}.

(** The six assignments to [b0 .. b5] of one iteration. *)
Definition pinkUpdate (s : PinkState) (white : Qc) : PinkState :=
  {| b0 := fadd ar (fmul ar (lit ar (dec 99886 100000)) (b0 s))
                   (fmul ar white (lit ar (dec 555179 10000000)));
     b1 := fadd ar (fmul ar (lit ar (dec 99332 100000)) (b1 s))
                   (fmul ar white (lit ar (dec 750759 10000000)));
     b2 := fadd ar (fmul ar (lit ar (dec 96900 100000)) (b2 s))
                   (fmul ar white (lit ar (dec 1538520 10000000)));
     b3 := fadd ar (fmul ar (lit ar (dec 86650 100000)) (b3 s))
                   (fmul ar white (lit ar (dec 3104856 10000000)));
     b4 := fadd ar (fmul ar (lit ar (dec 55000 100000)) (b4 s))
                   (fmul ar white (lit ar (dec 5329522 10000000)));
     b5 := fsub ar (fmul ar (fneg (lit ar (dec 7616 10000))) (b5 s))
                   (fmul ar white (lit ar (dec 168980 10000000))) |}.

(** [b0 + b1 + b2 + b3 + b4 + b5 + white * 0.5362], as JavaScript
    associates it. *)
Definition pinkSum (s : PinkState) (white : Qc) : Qc :=
  fadd ar
    (fadd ar (fadd ar (fadd ar (fadd ar (fadd ar (b0 s) (b1 s)) (b2 s)) (b3 s)) (b4 s)) (b5 s))
    (fmul ar white (lit ar (dec 5362 10000))).

(** Reading [output[i]] inside the loop, where [i] is in range. *)
Definition readSample (output : list Qc) (i : nat) : Qc :=
  default 0%Qc (output !! i).

(** The [for] loop of [createPinkNoise]. *)
Fixpoint pinkNoiseLoop (n i : nat) (s : PinkState) (output : list Qc) : M (list Qc) :=
  match n with
  | 0 => ret output
  | S n' =>
      r <- mathRandom ;;
      let white := fsub ar (fmul ar r (lit ar 2)) (lit ar 1) in
      let s' := pinkUpdate s white in
      let output1 := <[i := float32 ar (pinkSum s' white)]> output in
      let output2 :=
        <[i := float32 ar (fmul ar (readSample output1 i) (lit ar (dec 11 100)))]> output1 in
      pinkNoiseLoop n' (S i) s' output2
  end.

Definition createPinkNoise : M NodeId :=
  let bufferSize := 2 * sampleRate host in
  noiseBuffer <- createBuffer bufferSize ;;
  output <- pinkNoiseLoop bufferSize 0 pinkZero noiseBuffer ;;
  pinkNoise <- createBufferSource ;;
  setBuffer pinkNoise output ;;
  setLoop pinkNoise true ;;
  ret pinkNoise.

Definition stopTone : M unit :=
  s <- get source ;;
  match s with
  | Some n =>
      tryFinally
        (tryCatch (stop n) (fun error => consoleError "Error stopping tone:"))
        (modify (set_source None))
  | None => ret tt
  end.

Definition playTone (frequency : number) : M unit :=
  tryCatch
    (ensureAudioContextActive ;;
     ensureAnalyserOutput ;;
     stopTone ;;
     let freq := parseFloat frequency in
     if isNaN freq || le_zero freq
     then throw (JsError "Invalid frequency value. Must be a number greater than 0.")
     else
       waveformInput <- get waveformInput ;;
       noiseTypeInput <- get noiseTypeInput ;;
       match waveformInput, noiseTypeInput with
       | Some waveform, Some noiseType =>
           (if String.eqb noiseType "none" then
              oscillator <- createOscillator ;;
              setType oscillator waveform ;;
              setValueAtTime oscillator freq ;;
              connect oscillator ;;
              start oscillator ;;
              modify (set_source (Some oscillator))
            else if String.eqb noiseType "white" then
              n <- createWhiteNoise ;;
              modify (set_source (Some n)) ;;
              connect n ;;
              start n
            else if String.eqb noiseType "pink" then
              n <- createPinkNoise ;;
              modify (set_source (Some n)) ;;
              connect n ;;
              start n
            else ret tt) ;;
           visualize
       | _, _ =>
           throw (JsError "Waveform or noise type selection is missing. Please check the UI.")
       end)
    (fun error =>
       consoleError "Error in playTone:" ;;
       alert ("Error playing tone: " ++ message error)).

(** *** mp3Handler.js *)

Definition createMediaElementSource : M NodeId :=
  hostCall CreateMediaElementSource ;;
  newNode MediaElementAudioSourceNode.

(** [audioPlayer.play()] *)
Definition play : M unit :=
  hostCall Play ;;
  modify (fun w =>
    set_audioPlayer {| src := src (audioPlayer w); paused := false;
                       currentTime := currentTime (audioPlayer w) |} w).

(** [audioPlayer.pause()] *)
Definition pause : M unit :=
  hostCall Pause ;;
  modify (fun w =>
    set_audioPlayer {| src := src (audioPlayer w); paused := true;
                       currentTime := currentTime (audioPlayer w) |} w).

(** [audioPlayer.currentTime = t] *)
Definition setCurrentTime (t : Qc) : M unit :=
  modify (fun w =>
    set_audioPlayer {| src := src (audioPlayer w); paused := paused (audioPlayer w);
                       currentTime := t |} w).

(** [audioPlayer.src = url] *)
Definition setSrc (url : string) : M unit :=
  modify (fun w =>
    set_audioPlayer {| src := url; paused := paused (audioPlayer w);
                       currentTime := currentTime (audioPlayer w) |} w).

(** [if (audioPlayer.src && audioPlayer.src.startsWith('blob:'))
      URL.revokeObjectURL(audioPlayer.src)] *)
Definition revokeBlob : M unit :=
  p <- get audioPlayer ;;
  if negb (String.eqb (src p) "") && String.prefix "blob:" (src p)
  then hostCall (RevokeObjectURL (src p))
  else ret tt.

Definition setupAudioNodes : M unit :=
  tryCatch
    (ensureAudioContextActive ;;
     ensureAnalyserOutput ;;
     p <- get audioPlayer ;;
     if String.eqb (src p) "" then consoleWarn "Audio player has no source"
     else
       created <- get mediaElementSourceCreated ;;
       existing <- get mp3Source ;;
       let connectAndPlay (n : NodeId) : M unit :=
         connect n ;;
         tryCatch play
           (fun playError =>
              consoleError "Error starting playback:" ;;
              alert ("Failed to play MP3: " ++ message playError)) ;;
         visualize in
       if negb created then
         n <- createMediaElementSource ;;
         modify (set_mp3Source (Some n)) ;;
         modify (set_mediaElementSourceCreated true) ;;
         connectAndPlay n
       else
         match existing with
         | Some n => connectAndPlay n
         | None => consoleWarn "MediaElementSource was created but is null"
         end)
    (fun error =>
       consoleError "Error in setupAudioNodes:" ;;
       alert ("Error setting up audio nodes: " ++ message error)).

Definition stopMp3 : M unit :=
  tryCatch
    (h <- get currentVisualizerAnimation ;;
     (if truthy h then cancelAnimationFrame h else ret tt) ;;
     s <- get mp3Source ;;
     match s with
     | Some n =>
         pause ;;
         setCurrentTime 0 ;;
         revokeBlob ;;
         tryCatch (disconnect n)
           (fun disconnectError => consoleError "Error disconnecting mp3Source:") ;;
         modify (set_mp3Source None)
     | None => ret tt
     end)
    (fun error => consoleError "Error in stopMp3:").

Definition clearMp3 : M unit :=
  tryCatch
    (revokeBlob ;;
     setSrc "" ;;
     hostCall Load ;;
     s <- get mp3Source ;;
     match s with
     | Some n =>
         tryFinally
           (tryCatch (disconnect n)
              (fun disconnectError => consoleError "Error disconnecting mp3Source:"))
           (modify (set_mp3Source None))
     | None => ret tt
     end ;;
     modify (set_mediaElementSourceCreated false))
    (fun error => consoleError "Error in clearMp3:").

(** *** script.js *)

(** The click listener of the play button, given the parsed value of the
    frequency field. *)
Definition onPlayToneClick (frequency : number) : M unit :=
  tryCatch
    (if isNaN frequency || le_zero frequency
     then
       consoleError "Invalid frequency value:" ;;
       alert "Please enter a valid frequency value greater than 0."
     else playTone frequency)
    (fun error => consoleError "Error playing tone:").

Definition onStopToneClick : M unit :=
  tryCatch stopTone (fun error => consoleError "Error stopping tone:").

Definition onStopMp3Click : M unit :=
  tryCatch stopMp3 (fun error => consoleError "Error stopping MP3:").

Definition onClearMp3Click : M unit :=
  tryCatch clearMp3 (fun error => consoleError "Error clearing MP3:").

(** The [change] listener of the uploader, given the object URL made for
    the chosen file (the checks on the file precede it and touch nothing):
    it makes sure the context is active, revokes the previous object URL,
    puts the new one into the element and asks it to load. *)
Definition onMp3Selected (url : string) : M unit :=
  tryCatch
    (ensureAudioContextActive ;;
     revokeBlob ;;
     setSrc url ;;
     hostCall Load)
    (fun error =>
       consoleError "Error in MP3 upload handler:" ;;
       alert ("Error uploading MP3: " ++ message error)).

(** The [loadeddata] listener the uploader installs on the audio element. *)
Definition audioLoadListener : M unit :=
  tryCatch setupAudioNodes
    (fun setupError => consoleError "Error setting up audio nodes:").

End Program.

(** ** The page as the modules leave it after loading

    [audioContext.js] creates the context and the analyser ([fftSize] 2048)
    and connects the analyser to the destination; every module variable has
    its initial value; the page checks the "sine" and "none" radio buttons. *)

Definition initialWorld : World :=
  {| ctxState := suspended;
     analyser := Some {| fftSize := 2048; toDestination := true; inputs := ∅ |};
     nodes := ∅;
     nextNode := 0;
     source := None;
     mp3Source := None;
     mediaElementSourceCreated := false;
     audioPlayer := {| src := ""; paused := true; currentTime := 0 |};
     currentVisualizerAnimation := None;
     visualizerType := "bar";
     frames := [];
     nextFrame := 1;
     waveformInput := Some "sine";
     noiseTypeInput := Some "none";
     randomCalls := 0;
     trace := [] |}.

(** A host on which no call throws; [Math.random] cycles through
    0, 1/4, 1/2, 3/4. *)
Definition quietHost : Host :=
  {| throws := fun _ => false;
     random := fun i => dec (Z.of_nat (i mod 4)) 4;
     sampleRate := 3 |}.

(** Arithmetic without rounding error. *)
Definition exact : Arith := {| double := fun q => q; float32 := fun q => q |}.

(** A host whose [audioContext.resume()] is rejected. *)
Definition blockedHost : Host :=
  {| throws := fun c => match c with Resume => true | _ => false end;
     random := random quietHost;
     sampleRate := sampleRate quietHost |}.

(** A host on which connecting a producer to the analyser throws. *)
Definition connectFailsHost : Host :=
  {| throws := fun c => match c with Connect _ => true | _ => false end;
     random := random quietHost;
     sampleRate := sampleRate quietHost |}.

(** A host on which painting the canvas throws. *)
Definition paintFailsHost : Host :=
  {| throws := fun c => match c with Paint _ => true | _ => false end;
     random := random quietHost;
     sampleRate := sampleRate quietHost |}.

(** The page while a 440 Hz sine is playing. *)
Definition tonePlaying : World :=
  exec (playTone quietHost exact (Finite (Qc_of_Z 440))) initialWorld.

(** The page with white noise selected. *)
Definition whiteSelected : World :=
  {| ctxState := running;
     analyser := analyser initialWorld;
     nodes := ∅; nextNode := 0; source := None; mp3Source := None;
     mediaElementSourceCreated := false;
     audioPlayer := audioPlayer initialWorld;
     currentVisualizerAnimation := None; visualizerType := "bar";
     frames := []; nextFrame := 1;
     waveformInput := Some "sine"; noiseTypeInput := Some "white";
     randomCalls := 0; trace := [] |}.

(** The page once a file has been loaded into the audio element. *)
Definition fileLoaded : World :=
  exec (setSrc "blob:track-1") initialWorld.

(** ... and while that file is playing. *)
Definition mediaPlaying : World :=
  exec (setupAudioNodes quietHost) fileLoaded.

(** ... and after the stop button has been pressed. *)
Definition mediaStopped : World :=
  exec (stopMp3 quietHost) mediaPlaying.

(** The context after [close()]. *)
Definition closedWorld : World := set_ctxState closed initialWorld.

(** ** What can happen to the page

    The listeners [script.js] registers, the frame callback and the user's
    choice of radio buttons.  Each runs to completion. *)
Inductive PageEvent : Type :=
| ClickPlayTone (frequency : number)
| ClickStopTone
| ClickStopMp3
| ClickClearMp3
| ChangeVisualizer (value : string)
| Mp3Selected (url : string)
| LoadedData
| AnimationFrame.

Definition handle (host : Host) (ar : Arith) (e : PageEvent) : M unit :=
  match e with
  | ClickPlayTone frequency => onPlayToneClick host ar frequency
  | ClickStopTone => onStopToneClick host
  | ClickStopMp3 => onStopMp3Click host
  | ClickClearMp3 => onClearMp3Click host
  | ChangeVisualizer value => onVisualizerChange host value
  | Mp3Selected url => onMp3Selected host url
  | LoadedData => audioLoadListener host
  | AnimationFrame => fireFrame host
  end.


(** ** Vocabulary of the properties *)

(** *** Order of the activation sequence

    Host calls that create a producer (or its buffer) or connect one to the
    analyser. *)
Definition createsOrConnects (c : HostCall) : bool :=
  match c with
  | CreateOscillator | CreateBuffer _ | CreateBufferSource
  | CreateMediaElementSource | Connect _ => true
  | _ => false
  end.

Inductive Phase : Type := NothingEnsured | ContextEnsured | OutputEnsured.

(** Reads a run oldest event first: [ensureAudioContextActive] must have
    been entered, and after it [ensureAnalyserOutput], before any event of
    [createsOrConnects]. *)
Fixpoint ensuredFirst (ph : Phase) (evs : list Event) : bool :=
  match evs with
  | [] => true
  | Enter FnEnsureAudioContextActive :: rest =>
      ensuredFirst (match ph with NothingEnsured => ContextEnsured | _ => ph end) rest
  | Enter FnEnsureAnalyserOutput :: rest =>
      ensuredFirst (match ph with ContextEnsured => OutputEnsured | _ => ph end) rest
  | Did c :: rest =>
      if createsOrConnects c
      then match ph with OutputEnsured => ensuredFirst ph rest | _ => false end
      else ensuredFirst ph rest
  | _ :: rest => ensuredFirst ph rest
  end.

(** An event that is not of [createsOrConnects]. *)
Definition quiet (e : Event) : bool :=
  match e with
  | Did c => negb (createsOrConnects c)
  | _ => true
  end.

(** An event that neither is of [createsOrConnects] nor enters a function
    of [utils.js]. *)
Definition inert (e : Event) : bool :=
  match e with
  | Enter _ => false
  | Did c => negb (createsOrConnects c)
  | _ => true
  end.

(** *** Media binding *)

Definition isWrap (e : Event) : bool :=
  match e with Did CreateMediaElementSource => true | _ => false end.

(** How many times a run wrapped the media element. *)
Fixpoint wraps (evs : list Event) : nat :=
  match evs with
  | [] => 0
  | e :: rest => (if isWrap e then 1 else 0) + wraps rest
  end.

(** An event other than connecting a producer or starting playback. *)
Definition notConnectOrPlay (e : Event) : bool :=
  match e with
  | Did (Connect _) | Did Play => false
  | _ => true
  end.

(** Events of [ensureAnalyserOutput] after its entry. *)
Definition outputEvent (e : Event) : bool :=
  match e with
  | Did ConnectAnalyserToDestination | ConsoleError _ | Alert _ => true
  | _ => false
  end.

(** Whether revoking the element's object URL, when it has one, throws. *)
Definition revokeThrows (host : Host) (w : World) : bool :=
  negb (String.eqb (src (audioPlayer w)) "") &&
  String.prefix "blob:" (src (audioPlayer w)) &&
  throws host (RevokeObjectURL (src (audioPlayer w))).




(** *** The frame loop

    At most one frame is queued, and it is the one whose id is held in
    [currentVisualizerAnimation]; ids are positive. *)
Definition oneLoop (w : World) : Prop :=
  (1 ≤ nextFrame w)%nat ∧
  (frames w = [] ∨
   ∃ id k, frames w = [(id, k)] ∧ currentVisualizerAnimation w = Some id ∧
           (1 ≤ id < nextFrame w)%nat).

(** Whether painting a frame of kind [k] fails on this host. *)
Definition frameFails (host : Host) (k : DrawKind) : bool :=
  throws host RequestAnimationFrame || throws host GetByteFrequencyData ||
  throws host (Paint k).

(** The loop [visualize] starts for a value of the select, if any. *)
Definition drawKindOf (t : string) : option DrawKind :=
  if String.eqb t "bar" then Some BarGraph
  else if String.eqb t "kaleidoscope" then Some Kaleidoscope
  else if String.eqb t "kaleidoscope-b" then Some KaleidoscopeB
  else None.

(** Events of the visualizer. *)
Definition visEvent (e : Event) : bool :=
  match e with
  | Did (CancelAnimationFrame _) | Did RequestAnimationFrame
  | Did GetByteFrequencyData | Did (Paint _) | Did ClearRect
  | ConsoleError _ => true
  | _ => false
  end.

(** *** Activation failures of [playTone] *)

Inductive Failure : Type :=
| ResumeFailed
| InvalidFrequency
| MissingSelection
| OscillatorFailed.

Definition resumeFails (host : Host) (w : World) : bool :=
  bool_decide (ctxState w = suspended) && throws host Resume.

(** The first thing that goes wrong when [playTone frequency] runs in [w]
    on [host], as far as the oscillator branch; [None] when nothing of
    this list does. *)
Definition failure (host : Host) (frequency : number) (w : World) : option Failure :=
  if resumeFails host w then Some ResumeFailed
  else if isNaN frequency || le_zero frequency then Some InvalidFrequency
  else
    match waveformInput w, noiseTypeInput w with
    | Some waveform, Some noiseType =>
        if String.eqb noiseType "none" then
          let n := nextNode w in
          if throws host CreateOscillator || throws host (SetType waveform) ||
             throws host (SetValueAtTime n frequency) ||
             bool_decide (analyser w = None) ||
             throws host (Connect n) || throws host (Start n)
          then Some OscillatorFailed
          else None
        else None
    | _, _ => Some MissingSelection
    end.

(** *** The pink noise filter as the specification words it

    Six poles, each a pair of a feedback coefficient and an input gain. *)
Definition kelletPoles : list (Qc * Qc) :=
  [ (dec 99886 100000, dec 555179 10000000);
    (dec 99332 100000, dec 750759 10000000);
    (dec 96900 100000, dec 1538520 10000000);
    (dec 86650 100000, dec 3104856 10000000);
    (dec 55000 100000, dec 5329522 10000000);
    (dec (-7616) 10000, dec (-168980) 10000000) ].

Section Kellet.
Context (ar : Arith).

(** A uniform white sample from a draw of [Math.random]. *)
Definition whiteSample (r : Qc) : Qc :=
  fsub ar (fmul ar r (lit ar 2)) (lit ar 1).

(** One pole: [b := p * b + white * g]. *)
Definition kelletPole (white : Qc) (b : Qc) (pg : Qc * Qc) : Qc :=
  fadd ar (fmul ar (lit ar pg.1) b) (fmul ar white (lit ar pg.2)).

Definition kelletStep (bs : list Qc) (white : Qc) : list Qc :=
  zip_with (kelletPole white) bs kelletPoles.

(** The poles summed, plus the direct white term with weight 0.5362; the sum
    is stored in the sample, which is then scaled by 0.11. *)
Definition kelletSample (bs : list Qc) (white : Qc) : Qc :=
  let total :=
    fadd ar (foldl (fadd ar) (hd 0%Qc bs) (tl bs))
            (fmul ar white (lit ar (dec 5362 10000))) in
  float32 ar (fmul ar (float32 ar total) (lit ar (dec 11 100))).

(** The filter run over a list of white samples from the state [bs]. *)
Fixpoint kelletFilter (bs : list Qc) (whites : list Qc) : list Qc :=
  match whites with
  | [] => []
  | white :: rest =>
      let bs' := kelletStep bs white in
      kelletSample bs' white :: kelletFilter bs' rest
  end.

Definition kelletZero : list Qc := replicate 6 0%Qc.

End Kellet.

(** The samples the loop of [createPinkNoise] writes for the draws [rs],
    starting from the filter variables [s]: the loop body without the
    array. *)
Fixpoint pinkSamples (ar : Arith) (s : PinkState) (rs : list Qc) : list Qc :=
  match rs with
  | [] => []
  | r :: rest =>
      let white := fsub ar (fmul ar r (lit ar 2)) (lit ar 1) in
      let s' := pinkUpdate ar s white in
      float32 ar (fmul ar (float32 ar (pinkSum ar s' white)) (lit ar (dec 11 100)))
      :: pinkSamples ar s' rest
  end.

(** The filter variables in the order [b0 .. b5]. *)
Definition poles (s : PinkState) : list Qc :=
  [b0 s; b1 s; b2 s; b3 s; b4 s; b5 s].

(** The [n] draws [Math.random] hands out from its [from]-th call on. *)
Definition draws (host : Host) (from n : nat) : list Qc :=
  map (random host) (seq from n).

(** The buffer of the node [n], if [n] is a buffer source that has one. *)
Definition bufferOf (w : World) (n : NodeId) : option (list Qc) :=
  match nodes w !! n with
  | Some {| producer := AudioBufferSourceNode b _ |} => b
  | _ => None
  end.

Definition loops (w : World) (n : NodeId) : bool :=
  match nodes w !! n with
  | Some {| producer := AudioBufferSourceNode _ l |} => l
  | _ => false
  end.

Definition inputsOf (w : World) : gset NodeId :=
  match analyser w with
  | Some a => inputs a
  | None => ∅
  end.

(** ** Further parts of the page *)

(** *** The remaining listeners of [script.js] *)

(** The [load] listener of the window: [audioContext.resume()] whatever the
    state, with the rejection logged. *)
Definition onWindowLoad (host : Host) : M unit :=
  tryCatch (resume host)
    (fun error => consoleError "Failed to resume AudioContext:").

(** A [File] of the uploader's [FileList]: its name and MIME type. *)
Record File : Type := {
  fileName : string;
  fileType : string;
}.

(** [s.includes(t)] *)
Fixpoint includes (t s : string) : bool :=
  String.prefix t s ||
  match s with
  | EmptyString => false
  | String _ s' => includes t s'
  end.

(** [s.endsWith(t)] *)
Definition endsWith (t s : string) : bool :=
  (String.length t <=? String.length s)%nat &&
  String.eqb (String.substring (String.length s - String.length t)%nat (String.length t) s) t.

(** The [change] listener of the uploader as [script.js] has it, checks
    included: [files] is [e.target.files], and [url] the object URL the
    browser makes for the first file.  The page has the element
    [audio-player], so the branch for a missing element is not taken.  The
    two listeners it installs on the element are the event [LoadedData] and
    the element's own error report; installing them changes nothing the
    functions of the page read. *)
Definition onMp3UploaderChange (host : Host) (files : option (list File)) (url : string)
    : M unit :=
  tryCatch
    (match files with
     | None | Some [] => consoleWarn "No files selected"
     | Some (file :: _) =>
         if negb (includes "audio/mpeg" (fileType file)) &&
            negb (endsWith ".mp3" (fileName file))
         then
           consoleError "Selected file is not an MP3:" ;;
           alert "Please select an MP3 audio file."
         else
           ensureAudioContextActive host ;;
           revokeBlob host ;;
           setSrc url ;;
           hostCall host Load
     end)
    (fun error =>
       consoleError "Error in MP3 upload handler:" ;;
       alert ("Error uploading MP3: " ++ message error)).

(** *** Further hosts and pages *)

(** A host that refuses [play()], as a browser does without a user gesture. *)
Definition playBlockedHost : Host :=
  {| throws := fun c => match c with Play => true | _ => false end;
     random := random quietHost;
     sampleRate := sampleRate quietHost |}.

(** A host that cannot make a buffer source. *)
Definition noNodesHost : Host :=
  {| throws := fun c => match c with CreateBufferSource => true | _ => false end;
     random := random quietHost;
     sampleRate := sampleRate quietHost |}.

(** The page with a noise type selected that the code does not know. *)
Definition brownSelected : World :=
  {| ctxState := running;
     analyser := analyser initialWorld;
     nodes := ∅; nextNode := 0; source := None; mp3Source := None;
     mediaElementSourceCreated := false;
     audioPlayer := audioPlayer initialWorld;
     currentVisualizerAnimation := None; visualizerType := "bar";
     frames := []; nextFrame := 1;
     waveformInput := Some "sine"; noiseTypeInput := Some "brown";
     randomCalls := 0; trace := [] |}.

(** A file that passes the uploader's check by its type, and one that fails
    it. *)
Definition mp3File : File := {| fileName := "take.MP3"; fileType := "audio/mpeg" |}.
Definition textFile : File := {| fileName := "notes.txt"; fileType := "text/plain" |}.

(** *** Further vocabulary *)

(** The browser fires [n] frames one after the other. *)
Fixpoint fireFrames (host : Host) (n : nat) (w : World) : World :=
  match n with
  | 0 => w
  | S n' => fireFrames host n' (exec (fireFrame host) w)
  end.

(** The events of one frame that renders. *)
Definition frameEvents (k : DrawKind) : list Event :=
  [Did RequestAnimationFrame; Did GetByteFrequencyData; Did (Paint k)].

(** What the visualizer does not own: the context, the audio graph, the
    producers and the media element. *)
Definition sameAudio (w w' : World) : Prop :=
  ctxState w' = ctxState w ∧ analyser w' = analyser w ∧ nodes w' = nodes w ∧
  nextNode w' = nextNode w ∧ source w' = source w ∧ mp3Source w' = mp3Source w ∧
  mediaElementSourceCreated w' = mediaElementSourceCreated w ∧
  audioPlayer w' = audioPlayer w ∧ randomCalls w' = randomCalls w.

(** Reads a run oldest event first: the producer [old] is stopped, or the
    failure of stopping it logged, before any event of [createsOrConnects]. *)
Fixpoint stoppedFirst (old : NodeId) (evs : list Event) : bool :=
  match evs with
  | [] => true
  | Did (Stop n) :: rest => bool_decide (n = old) || stoppedFirst old rest
  | ConsoleError msg :: rest =>
      String.eqb msg "Error stopping tone:" || stoppedFirst old rest
  | Did c :: rest => negb (createsOrConnects c) && stoppedFirst old rest
  | _ :: rest => stoppedFirst old rest
  end.

(** What the module variables and the analyser hold refers to nodes that
    have been created; the media element is recorded as wrapped while it is
    bound; and the analyser is the one [audioContext.js] made. *)
Definition wellFormed (w : World) : Prop :=
  (∃ a, analyser w = Some a ∧ fftSize a = 2048%nat) ∧
  (∀ n, n ∈ inputsOf w → (n < nextNode w)%nat) ∧
  (∀ n, source w = Some n → (n < nextNode w)%nat) ∧
  (∀ n, mp3Source w = Some n → (n < nextNode w)%nat ∧ mediaElementSourceCreated w = true).

(** *** One tone at a time *)





(** A host on which [stop()] throws. *)
Definition stopFailsHost : Host :=
  {| throws := fun c => match c with Stop _ => true | _ => false end;
     random := random quietHost;
     sampleRate := sampleRate quietHost |}.

(** *** The canvas statements of a bar graph frame *)

(** [canvasCtx.fillStyle = style; canvasCtx.fillRect(x, y, w, h)] *)
Inductive CanvasOp : Type :=
| FillRect (fillStyle : string) (x y w h : Qc).

Definition fdiv (ar : Arith) (x y : Qc) : Qc := double ar (x / y)%Qc.

(** The [for] loop of [draw] in [drawBarGraph]: one bar per bin, [x] moving
    right by [barWidth + 1]. *)
Fixpoint barLoop (ar : Arith) (height barWidth : Qc) (barColor : string)
    (dataArray : list nat) (x : Qc) : list CanvasOp :=
  match dataArray with
  | [] => []
  | barHeight :: rest =>
      let half := fdiv ar (Qc_of_Z (Z.of_nat barHeight)) (lit ar 2) in
      FillRect barColor x (fsub ar height half) barWidth half
      :: barLoop ar height barWidth barColor rest
           (fadd ar x (fadd ar barWidth (lit ar 1)))
  end.

(** What one frame of the bar graph paints on a canvas of the given width
    and height, in the colour of the colour field, for the spectrum the
    analyser wrote into [dataArray]; [bufferLength] is its length. *)
Definition barFrame (ar : Arith) (width height : Z) (barColor : string)
    (dataArray : list nat) : list CanvasOp :=
  let bufferLength := Qc_of_Z (Z.of_nat (length dataArray)) in
  let barWidth :=
    fmul ar (fdiv ar (Qc_of_Z width) bufferLength) (lit ar (dec 25 10)) in
  FillRect "rgb(0, 0, 0)" 0 0 (Qc_of_Z width) (Qc_of_Z height)
  :: barLoop ar (Qc_of_Z height) barWidth barColor dataArray 0.

(** The number [k / 2048]. *)
Definition dy (k : Z) : Qc := Q2Qc (k # 2048).

(** Doubles hold the multiples of 1/2048 up to 2^53 / 2048 exactly. *)
Definition dyadic (ar : Arith) : Prop :=
  ∀ k : Z, (Z.abs k ≤ 2 ^ 53)%Z → double ar (dy k) = dy k.

Local Open Scope nat_scope.

(** * Runs on the page as loaded *)

(** [playTone(440)] on a suspended context: resume, reconnect the analyser,
    build and start the oscillator, start the bar graph. *)
Example playTone_440_example :
  emitted initialWorld tonePlaying =
    [ Enter FnEnsureAudioContextActive; Did Resume;
      Enter FnEnsureAnalyserOutput; Did ConnectAnalyserToDestination;
      Did CreateOscillator; Did (SetType "sine");
      Did (SetValueAtTime 0 (Finite (Qc_of_Z 440)));
      Did (Connect 0); Did (Start 0);
      Did RequestAnimationFrame; Did GetByteFrequencyData; Did (Paint BarGraph) ] ∧
  source tonePlaying = Some 0 ∧
  frames tonePlaying = [(1, BarGraph)] ∧
  currentVisualizerAnimation tonePlaying = Some 1.
Proof. by vm_compute. Qed.

(** White noise at a sample rate of 3: six samples, from the draws
    0, 1/4, 1/2, 3/4, 0, 1/4. *)
Example createWhiteNoise_example :
  bufferOf (exec (createWhiteNoise quietHost exact) initialWorld) 0 =
    Some [dec (-1) 1; dec (-1) 2; dec 0 1; dec 1 2; dec (-1) 1; dec (-1) 2].
Proof. by vm_compute. Qed.

(** The first pink sample for the draw 1/4, that is for the white sample
    -1/2: every pole starts at zero. *)
Example createPinkNoise_first_sample :
  hd_error (pinkSamples exact pinkZero [dec 1 4]) =
    Some ((dec 555179 10000000 + dec 750759 10000000 + dec 1538520 10000000
           + dec 3104856 10000000 + dec 5329522 10000000 - dec 168980 10000000
           + dec 5362 10000) * dec (-1) 2 * dec 11 100)%Qc.
Proof. by vm_compute. Qed.

(** A file is played, stopped, and activated again: the second activation
    warns and does nothing else. *)
Example media_stop_then_activate_example :
  mp3Source mediaPlaying = Some 0 ∧
  mp3Source mediaStopped = None ∧
  mediaElementSourceCreated mediaStopped = true ∧
  emitted mediaStopped (exec (setupAudioNodes quietHost) mediaStopped) =
    [ Enter FnEnsureAudioContextActive;
      Enter FnEnsureAnalyserOutput; Did ConnectAnalyserToDestination;
      ConsoleWarn "MediaElementSource was created but is null" ].
Proof. by vm_compute. Qed.

(** While the bar graph runs, a frame on which painting throws empties the
    queue. *)
Example failing_frame_example :
  frames tonePlaying = [(1, BarGraph)] ∧
  frames (exec (fireFrame paintFailsHost) tonePlaying) = [] ∧
  emitted tonePlaying (exec (fireFrame paintFailsHost) tonePlaying) =
    [ Did RequestAnimationFrame; Did GetByteFrequencyData;
      ConsoleError "Error in bar graph animation frame:";
      Did (CancelAnimationFrame 2) ].
Proof. by vm_compute. Qed.

(** Across a reset the same element is wrapped again. *)
Example clearMp3_then_wrap_again_example :
  let w1 := exec (clearMp3 quietHost) mediaPlaying in
  let w2 := exec (setupAudioNodes quietHost) (exec (setSrc "blob:track-2") w1) in
  mediaElementSourceCreated w1 = false ∧ mp3Source w1 = None ∧
  mp3Source w2 = Some 1 ∧ wraps (emitted fileLoaded w2) = 2.
Proof. by vm_compute. Qed.

(** * Proofs *)

(** ** Symbolic execution

    A run [m w] is evaluated from the outside in: the monad and the host
    primitives are unfolded, and whenever evaluation is stuck on a test (a
    host call that may throw, a field of the world, a comparison) that test
    is split on. *)

Ltac head t := lazymatch t with ?f _ => head f | _ => t end.

Ltac scrutinee t :=
  let h := head t in
  lazymatch h with
  | match ?x with _ => _ end =>
      let hx := head x in
      lazymatch hx with
      | match _ with _ => _ end => scrutinee x
      | _ => x
      end
  end.

Ltac js_eval H :=
  cbv beta iota zeta delta
    [ bind tryCatch tryFinally ret throw get modify emit consoleError consoleWarn alert
      hostCall updateNode newNode resume connectToDestination connect disconnect
      start stop createOscillator setType setValueAtTime createBuffer createBufferSource
      setBuffer setLoop mathRandom requestAnimationFrame cancelAnimationFrame truthy
      createMediaElementSource play pause setCurrentTime setSrc revokeBlob
      set_ctxState set_analyser set_nodes set_nextNode set_source set_mp3Source
      set_mediaElementSourceCreated set_audioPlayer set_currentVisualizerAnimation
      set_visualizerType set_frames set_nextFrame set_randomCalls set_trace
      ctxState analyser nodes nextNode source mp3Source mediaElementSourceCreated
      audioPlayer currentVisualizerAnimation visualizerType frames nextFrame
      waveformInput noiseTypeInput randomCalls trace
      src paused currentTime fftSize toDestination inputs
      parseFloat orb andb negb ] in H.

Ltac destruct_world w :=
  destruct w as [cs an ns nn so ms mc [asrc apaused atime] cva vt fr nf wi ni rc tr].

(** ** Lists of events *)

Lemma emitted_prefix (w w' : World) (evs : list Event) :
  trace w' = evs ++ trace w → emitted w w' = rev evs.
Proof.
  intros E. unfold emitted. rewrite E, length_app.
  replace (length evs + length (trace w) - length (trace w)) with (length evs) by lia.
  by rewrite take_app_length.
Qed.

Lemma ensuredFirst_quiet ph (evs : list Event) :
  forallb quiet evs = true → ensuredFirst ph evs = true.
Proof.
  revert ph. induction evs as [|e evs IH]; intros ph H; [done|].
  cbn in H. apply andb_prop in H as [He H].
  destruct e as [[]|c| | |]; cbn; try (by apply IH).
  cbn in He. destruct (createsOrConnects c); [done | by apply IH].
Qed.

Lemma forallb_rev {A} (f : A → bool) (l : list A) :
  forallb f (rev l) = forallb f l.
Proof.
  induction l as [|x l IH]; [done|].
  cbn. rewrite forallb_app, IH. cbn. rewrite andb_true_r. apply andb_comm.
Qed.

Lemma forallb_impl {A} (f g : A → bool) (l : list A) :
  (∀ x, f x = true → g x = true) → forallb f l = true → forallb g l = true.
Proof.
  intros Hfg. induction l as [|x l IH]; [done|].
  cbn. intros [Hx Hl]%andb_prop. by rewrite (Hfg _ Hx), IH.
Qed.

(** ** Arithmetic *)

Lemma exact_rounding : Rounding (fun q : Qc => q).
Proof. by split; intros. Qed.

Lemma rounding_minus_1 (r : Qc → Qc) : Rounding r → r (-1)%Qc = (-1)%Qc.
Proof. intros R. by rewrite (rounding_odd _ R), (rounding_1 _ R). Qed.

(** Rounding keeps a value between two values it leaves alone. *)
Lemma rounding_between (r : Qc → Qc) (lo hi x : Qc) :
  Rounding r → r lo = lo → r hi = hi →
  (lo ≤ x)%Qc → (x ≤ hi)%Qc → (lo ≤ r x)%Qc ∧ (r x ≤ hi)%Qc.
Proof.
  intros R Elo Ehi Hlo Hhi. split.
  - rewrite <- Elo. by apply (rounding_mono _ R).
  - rewrite <- Ehi. by apply (rounding_mono _ R).
Qed.

Lemma whiteSample_range ar (r : Qc) :
  Rounding (double ar) →
  (0 ≤ r)%Qc → (r < 1)%Qc →
  (-1 ≤ whiteSample ar r)%Qc ∧ (whiteSample ar r ≤ 1)%Qc.
Proof.
  intros R H0 H1. unfold whiteSample, fsub, fmul, lit.
  rewrite (rounding_2 _ R), (rounding_1 _ R).
  destruct (rounding_between (double ar) 0 2 (r * 2) R) as [Hlo Hhi].
  - apply (rounding_0 _ R).
  - apply (rounding_2 _ R).
  - apply Qcle_trans with (0 * 2)%Qc; [by vm_compute|].
    apply Qcmult_le_compat_r; [done | by vm_compute].
  - apply Qcle_trans with (1 * 2)%Qc; [|by vm_compute].
    apply Qcmult_le_compat_r; [by apply Qclt_le_weak | by vm_compute].
  - apply (rounding_between (double ar) (-1) 1 _ R).
    + by apply rounding_minus_1.
    + apply (rounding_1 _ R).
    + apply Qcle_trans with (0 - 1)%Qc; [by vm_compute|].
      by apply Qcplus_le_mono_r.
    + apply Qcle_trans with (2 - 1)%Qc; [|by vm_compute].
      by apply Qcplus_le_mono_r.
Qed.

Lemma float32_range ar (x : Qc) :
  Rounding (float32 ar) →
  (-1 ≤ x)%Qc ∧ (x ≤ 1)%Qc → (-1 ≤ float32 ar x)%Qc ∧ (float32 ar x ≤ 1)%Qc.
Proof.
  intros R [Hlo Hhi].
  apply (rounding_between (float32 ar) (-1) 1 _ R); try done.
  - by apply rounding_minus_1.
  - apply (rounding_1 _ R).
Qed.

(** ** The noise loops *)

Lemma whiteNoiseLoop_run host ar n : ∀ i output w,
  i + n ≤ length output →
  whiteNoiseLoop host ar n i output w =
    (Ok (take i output
         ++ map (λ r, float32 ar (whiteSample ar r)) (draws host (randomCalls w) n)
         ++ drop (i + n) output),
     set_randomCalls (randomCalls w + n) w).
Proof.
  induction n as [|n IH]; intros i output w Hlen.
  - cbn. rewrite Nat.add_0_r, take_drop. destruct_world w; cbn. by rewrite Nat.add_0_r.
  - cbn [whiteNoiseLoop]. unfold bind, mathRandom.
    rewrite IH by (rewrite length_insert; lia).
    destruct_world w; cbn. f_equal; [f_equal | unfold set_randomCalls; cbn; f_equal; lia].
    erewrite take_S_r by (apply list_lookup_insert_eq; lia).
    rewrite take_insert_ge by lia. rewrite <- app_assoc. cbn.
    rewrite drop_insert_lt by lia. by replace (i + S n) with (S (i + n)) by lia.
Qed.

Lemma whiteNoiseLoop_full host ar len w :
  whiteNoiseLoop host ar len 0 (replicate len 0%Qc) w =
    (Ok (map (λ r, float32 ar (whiteSample ar r)) (draws host (randomCalls w) len)),
     set_randomCalls (randomCalls w + len) w).
Proof.
  rewrite whiteNoiseLoop_run by (rewrite length_replicate; lia).
  rewrite drop_ge by (rewrite length_replicate; lia).
  cbn. by rewrite app_nil_r.
Qed.

Lemma pinkNoiseLoop_run host ar n : ∀ i s output w,
  i + n ≤ length output →
  pinkNoiseLoop host ar n i s output w =
    (Ok (take i output
         ++ pinkSamples ar s (draws host (randomCalls w) n)
         ++ drop (i + n) output),
     set_randomCalls (randomCalls w + n) w).
Proof.
  induction n as [|n IH]; intros i s output w Hlen.
  - cbn. rewrite Nat.add_0_r, take_drop. destruct_world w; cbn. by rewrite Nat.add_0_r.
  - cbn [pinkNoiseLoop]. unfold bind, mathRandom.
    rewrite IH by (rewrite !length_insert; lia).
    destruct_world w; cbn. f_equal; [f_equal | unfold set_randomCalls; cbn; f_equal; lia].
    unfold readSample. rewrite list_lookup_insert_eq by lia. cbn.
    rewrite list_insert_insert_eq.
    erewrite take_S_r by (apply list_lookup_insert_eq; lia).
    rewrite take_insert_ge by lia. rewrite <- app_assoc. cbn.
    rewrite drop_insert_lt by lia. by replace (i + S n) with (S (i + n)) by lia.
Qed.

Lemma pinkNoiseLoop_full host ar len w :
  pinkNoiseLoop host ar len 0 pinkZero (replicate len 0%Qc) w =
    (Ok (pinkSamples ar pinkZero (draws host (randomCalls w) len)),
     set_randomCalls (randomCalls w + len) w).
Proof.
  rewrite pinkNoiseLoop_run by (rewrite length_replicate; lia).
  rewrite drop_ge by (rewrite length_replicate; lia).
  cbn. by rewrite app_nil_r.
Qed.

Lemma length_draws host from n : length (draws host from n) = n.
Proof. unfold draws. by rewrite length_map, length_seq. Qed.

Lemma lookup_draws host from n i :
  i < n → draws host from n !! i = Some (random host (from + i)).
Proof.
  intros Hi. unfold draws.
  change (map (random host) (seq from n)) with (random host <$> seq from n).
  by rewrite list_lookup_fmap, lookup_seq_lt.
Qed.

Lemma length_pinkSamples ar rs : ∀ s, length (pinkSamples ar s rs) = length rs.
Proof. induction rs as [|r rs IH]; intros s; cbn; [done | by rewrite IH]. Qed.

(** The code's filter is the specification's. *)

Lemma dec_7616 : dec (-7616) 10000 = (- dec 7616 10000)%Qc.
Proof. by apply Qc_is_canon. Qed.

Lemma dec_168980 : dec (-168980) 10000000 = (- dec 168980 10000000)%Qc.
Proof. by apply Qc_is_canon. Qed.

Lemma kelletPole_b5 ar (white b : Qc) :
  Rounding (double ar) →
  fsub ar (fmul ar (fneg (lit ar (dec 7616 10000))) b)
          (fmul ar white (lit ar (dec 168980 10000000))) =
  kelletPole ar white b (dec (-7616) 10000, dec (-168980) 10000000).
Proof.
  intros R. unfold kelletPole, fsub, fadd, fmul, fneg, lit. cbn [fst snd].
  rewrite dec_7616, dec_168980, !(rounding_odd _ R).
  f_equal. unfold Qcminus. f_equal.
  rewrite <- (rounding_odd _ R). f_equal. ring.
Qed.

Lemma kelletStep_poles ar (s : PinkState) (white : Qc) :
  Rounding (double ar) →
  kelletStep ar (poles s) white = poles (pinkUpdate ar s white).
Proof.
  intros R. unfold kelletStep, poles, kelletPoles, pinkUpdate. cbn [zip_with b0 b1 b2 b3 b4 b5].
  by rewrite <- (kelletPole_b5 ar white (b5 s) R).
Qed.

Lemma pinkSamples_kellet ar rs : ∀ s,
  Rounding (double ar) →
  pinkSamples ar s rs = kelletFilter ar (poles s) (map (whiteSample ar) rs).
Proof.
  induction rs as [|r rs IH]; intros s R; [done|].
  cbn [pinkSamples map kelletFilter].
  change (fsub ar (fmul ar r (lit ar 2)) (lit ar 1)) with (whiteSample ar r).
  rewrite (kelletStep_poles ar s _ R), <- (IH _ R). done.
Qed.

(** Calls whose outcome is known from a lemma are rewritten rather than
    unfolded. *)
Ltac known_call H s :=
  lazymatch s with
  | whiteNoiseLoop ?h ?a ?len 0 (replicate ?len _) ?w =>
      rewrite (whiteNoiseLoop_full h a len w) in H
  | pinkNoiseLoop ?h ?a ?len 0 pinkZero (replicate ?len _) ?w =>
      rewrite (pinkNoiseLoop_full h a len w) in H
  end.

Ltac sym_step H :=
  lazymatch type of H with
  | _ = ?t =>
      let s := scrutinee t in
      first [ known_call H s | destruct s eqn:? ]
  end; js_eval H.

Ltac sym H := js_eval H; repeat sym_step H.

(** ** createWhiteNoise and createPinkNoise *)

Lemma createWhiteNoise_run host ar w :
  throws host (CreateBuffer (2 * sampleRate host)) = false →
  throws host CreateBufferSource = false →
  let w' := exec (createWhiteNoise host ar) w in
  result (createWhiteNoise host ar) w = Ok (nextNode w) ∧
  bufferOf w' (nextNode w) =
    Some (map (λ r, float32 ar (whiteSample ar r))
            (draws host (randomCalls w) (2 * sampleRate host))) ∧
  loops w' (nextNode w) = true ∧
  randomCalls w' = randomCalls w + 2 * sampleRate host.
Proof.
  intros H1 H2. destruct_world w. unfold result, exec.
  remember (createWhiteNoise host ar _) as p eqn:Hp.
  unfold createWhiteNoise in Hp. sym Hp; try congruence. subst p.
  unfold bufferOf, loops. cbn.
  rewrite !lookup_alter_eq, lookup_insert_eq. done.
Qed.

Lemma createPinkNoise_run host ar w :
  throws host (CreateBuffer (2 * sampleRate host)) = false →
  throws host CreateBufferSource = false →
  let w' := exec (createPinkNoise host ar) w in
  result (createPinkNoise host ar) w = Ok (nextNode w) ∧
  bufferOf w' (nextNode w) =
    Some (pinkSamples ar pinkZero (draws host (randomCalls w) (2 * sampleRate host))) ∧
  loops w' (nextNode w) = true ∧
  randomCalls w' = randomCalls w + 2 * sampleRate host ∧
  nextNode w' = S (nextNode w).
Proof.
  intros H1 H2. destruct_world w. unfold result, exec.
  remember (createPinkNoise host ar _) as p eqn:Hp.
  unfold createPinkNoise in Hp. sym Hp; try congruence. subst p.
  unfold bufferOf, loops. cbn.
  rewrite !lookup_alter_eq, lookup_insert_eq. done.
Qed.

(** C6. [createWhiteNoise] returns a looping buffer source whose buffer has
    exactly [2 * sampleRate] samples; sample [i] is [r * 2 - 1] for the
    [i]-th value [r] that [Math.random] hands out during the call, and every
    sample lies in [-1, 1]. *)
Theorem createWhiteNoise_samples host ar w :
  Rounding (double ar) → Rounding (float32 ar) →
  (∀ i, (0 ≤ random host i)%Qc ∧ (random host i < 1)%Qc) →
  throws host (CreateBuffer (2 * sampleRate host)) = false →
  throws host CreateBufferSource = false →
  ∃ b : list Qc,
    result (createWhiteNoise host ar) w = Ok (nextNode w) ∧
    bufferOf (exec (createWhiteNoise host ar) w) (nextNode w) = Some b ∧
    loops (exec (createWhiteNoise host ar) w) (nextNode w) = true ∧
    length b = 2 * sampleRate host ∧
    (∀ i, i < 2 * sampleRate host →
       b !! i = Some (float32 ar (whiteSample ar (random host (randomCalls w + i))))) ∧
    (∀ x, x ∈ b → (-1 ≤ x)%Qc ∧ (x ≤ 1)%Qc).
Proof.
  intros Rd Rf Hrand H1 H2.
  destruct (createWhiteNoise_run host ar w H1 H2) as (Hr & Hb & Hl & _).
  eexists. split_and!; [done | exact Hb | done | | |].
  - by rewrite length_map, length_draws.
  - intros i Hi.
    change (map ?f ?l) with (f <$> l).
    by rewrite list_lookup_fmap, lookup_draws.
  - intros x Hx. apply list_elem_of_In, in_map_iff in Hx as (r & <- & Hr').
    apply in_map_iff in Hr' as (j & <- & _).
    apply float32_range; [done|].
    apply whiteSample_range; [done | apply Hrand..].
Qed.

(** C7. The buffer [createPinkNoise] builds has [2 * sampleRate] samples and
    is the six-pole filter of the specification, with its coefficient pairs,
    the direct term 0.5362 and the scale 0.11, run from the all-zero state
    over one fresh white sample per buffer sample.  The statement holds in
    every world, so also in the one a previous call leaves: the state of the
    filter is not carried from one call to the next. *)
Theorem createPinkNoise_kellet host ar w :
  Rounding (double ar) →
  throws host (CreateBuffer (2 * sampleRate host)) = false →
  throws host CreateBufferSource = false →
  let len := 2 * sampleRate host in
  let w1 := exec (createPinkNoise host ar) w in
  let w2 := exec (createPinkNoise host ar) w1 in
  result (createPinkNoise host ar) w = Ok (nextNode w) ∧
  bufferOf w1 (nextNode w) =
    Some (kelletFilter ar kelletZero (map (whiteSample ar) (draws host (randomCalls w) len))) ∧
  bufferOf w2 (nextNode w1) =
    Some (kelletFilter ar kelletZero
            (map (whiteSample ar) (draws host (randomCalls w + len) len))) ∧
  (∀ b, bufferOf w1 (nextNode w) = Some b → length b = len).
Proof.
  intros R H1 H2 len w1 w2.
  destruct (createPinkNoise_run host ar w H1 H2) as (Hr & Hb & _ & Hrc & _).
  destruct (createPinkNoise_run host ar w1 H1 H2) as (_ & Hb2 & _).
  fold w1 in Hb, Hrc. fold w2 in Hb2.
  rewrite Hrc in Hb2.
  rewrite (pinkSamples_kellet ar _ pinkZero R) in Hb.
  rewrite (pinkSamples_kellet ar _ pinkZero R) in Hb2.
  split_and!; [done | exact Hb | exact Hb2 |].
  intros b Eb. rewrite Hb in Eb. injection Eb as <-.
  rewrite <- (pinkSamples_kellet ar _ pinkZero R).
  by rewrite length_pinkSamples, length_draws.
Qed.

(** ** The frame loop *)

Ltac prefix_of t base :=
  lazymatch t with
  | base => constr:(@nil Event)
  | ?e :: ?r => let p := prefix_of r base in constr:(e :: p)
  | ?l ++ ?r => let p := prefix_of r base in constr:(l ++ p)
  end.

(** Rewrites [emitted w w'] into the reversed prefix by which the trace of
    [w'] extends that of [w]. *)
Ltac emitted_eval :=
  repeat match goal with
  | |- context [emitted ?w ?w'] =>
      let t := eval cbv beta iota delta [trace] in (trace w') in
      let b := eval cbv beta iota delta [trace] in (trace w) in
      let p := prefix_of t b in
      rewrite (emitted_prefix w w' p)
        by (cbv beta iota delta [trace];
            repeat first [ rewrite <- app_assoc | progress cbn [app] ]; reflexivity)
  end.

Lemma filter_other_id (id : nat) (k : DrawKind) (other : nat) :
  id ≠ other →
  filter (λ p : nat * DrawKind, p.1 ≠ other) [(id, k)] = [(id, k)].
Proof. intros H. by rewrite filter_cons_True, filter_nil. Qed.

Lemma filter_same_id (id : nat) (k : DrawKind) :
  filter (λ p : nat * DrawKind, p.1 ≠ id) [(id, k)] = [].
Proof. rewrite filter_cons_False; [done | cbn; naive_solver]. Qed.

Lemma filter_no_frames (id : nat) :
  filter (λ p : nat * DrawKind, p.1 ≠ id) [] = [].
Proof. done. Qed.

Ltac frames_simpl :=
  repeat first [ progress cbn [app] | rewrite filter_same_id
               | rewrite filter_no_frames | rewrite filter_other_id by lia ].

Ltac oneLoop_tac :=
  unfold oneLoop; cbn [nextFrame frames currentVisualizerAnimation];
  split; [lia | first [ by left | right; eexists _, _; split_and!; [reflexivity | reflexivity | lia | lia] ] ].

Lemma visualize_loop host w :
  oneLoop w →
  let w1 := exec (visualize host) w in
  result (visualize host) w = Ok tt ∧ oneLoop w1 ∧
  (∀ id k, frames w = [(id, k)] →
     hd_error (emitted w w1) = Some (Did (CancelAnimationFrame id))) ∧
  (∀ p, p ∈ frames w1 → nextFrame w ≤ p.1) ∧
  (∀ k, drawKindOf (visualizerType w) = Some k → frameFails host k = true →
     frames w1 = []).
Proof.
  destruct_world w. intros [Hn [Hf | (id & k & Hf & Hc & Hid)]];
    cbn in Hn, Hf; [|cbn in Hc, Hid; destruct id as [|id]; [lia|]]; subst;
    unfold result, exec, drawKindOf, frameFails;
    cbn [frames nextFrame visualizerType];
    remember (visualize host _) as p eqn:Hp;
    unfold visualize, drawBarGraph, drawKaleidoscope, drawKaleidoscopeB, draw in Hp;
    sym Hp; subst p; cbn [fst snd frames nextFrame]; frames_simpl.
  all: split_and!; [done | oneLoop_tac | .. ].
  all: try done.
  all: try (intros p Hp; first [ by apply elem_of_nil in Hp
                               | apply list_elem_of_singleton in Hp as ->; cbn; lia ]).
  all: try (intros k' [= <-]; cbn [orb]; intros; congruence).
  all: intros id' k' [= <- <-]; emitted_eval; cbn; rewrite ?rev_app_distr; done.
Qed.

Lemma fireFrame_loop host w :
  oneLoop w →
  let w2 := exec (fireFrame host) w in
  result (fireFrame host) w = Ok tt ∧ oneLoop w2 ∧
  (∀ id k, frames w = [(id, k)] →
     if frameFails host k
     then frames w2 = [] ∧ ConsoleError (frameErrorMessage k) ∈ emitted w w2
     else frames w2 = [(nextFrame w, k)] ∧
          currentVisualizerAnimation w2 = Some (nextFrame w)).
Proof.
  destruct_world w. intros [Hn [Hf | (id & k & Hf & Hc & Hid)]];
    cbn in Hn, Hf; [|cbn in Hc, Hid]; subst;
    unfold result, exec, frameFails;
    cbn [frames nextFrame];
    remember (fireFrame host _) as p eqn:Hp;
    unfold fireFrame, draw in Hp;
    sym Hp; subst p; cbn [fst snd frames nextFrame currentVisualizerAnimation];
    frames_simpl.
  all: split_and!; [done | oneLoop_tac | .. ].
  all: try done.
  all: intros id' k' E; injection E as <- <-;
    repeat match goal with H : throws _ _ = _ |- _ => rewrite H end;
    cbn [orb]; split; try done.
  all: emitted_eval; apply list_elem_of_In; cbn; tauto.
Qed.

Lemma fireFrame_idle host w :
  frames w = [] → fireFrame host w = (Ok tt, w).
Proof.
  destruct_world w. cbn [frames]. by intros ->.
Qed.

(** C8. In a world where at most one frame is queued and it is the one
    held in [currentVisualizerAnimation], [visualize] cancels that frame
    before it does anything else, so that only a frame it requested itself
    can be queued afterwards; and a frame whose rendering throws logs the
    error and leaves the queue empty, so that nothing fires after it, both
    for the frame [visualize] draws itself and for a frame the browser
    fires.  The queue keeps its shape under both. *)
Theorem visualize_cancels_and_failure_stops host w :
  oneLoop w →
  let w1 := exec (visualize host) w in
  let w2 := exec (fireFrame host) w in
  (result (visualize host) w = Ok tt ∧ oneLoop w1 ∧
   (∀ id k, frames w = [(id, k)] →
      hd_error (emitted w w1) = Some (Did (CancelAnimationFrame id))) ∧
   (∀ p, p ∈ frames w1 → nextFrame w ≤ p.1) ∧
   (∀ k, drawKindOf (visualizerType w) = Some k → frameFails host k = true →
      frames w1 = [])) ∧
  (result (fireFrame host) w = Ok tt ∧ oneLoop w2 ∧
   (∀ id k, frames w = [(id, k)] → frameFails host k = true →
      frames w2 = [] ∧
      ConsoleError (frameErrorMessage k) ∈ emitted w w2 ∧
      ∀ host', fireFrame host' w2 = (Ok tt, w2))).
Proof.
  intros H w1 w2. split; [by apply visualize_loop|].
  destruct (fireFrame_loop host w H) as (Hr & Ho & Hf).
  split_and!; [done..|].
  intros id k E Hfail. specialize (Hf id k E). rewrite Hfail in Hf.
  destruct Hf as [Hf1 Hf2]. split_and!; [done..|].
  intros host'. by apply fireFrame_idle.
Qed.

(** The shape of the queue is an invariant of the page. *)


Ltac close_run tac :=
  first [ exists []; tac | eexists [_]; tac | eexists [_;_]; tac | eexists [_;_;_]; tac
        | eexists [_;_;_;_]; tac | eexists [_;_;_;_;_]; tac | eexists [_;_;_;_;_;_]; tac
        | eexists [_;_;_;_;_;_;_]; tac | eexists [_;_;_;_;_;_;_;_]; tac ].

(** What [visualize] can change: the three fields of the frame loop and the
    trace, to which it adds events of the visualizer only; the shape of the
    queue is kept. *)
Lemma visualize_run host w :
  ∃ cur fr nf evs,
    visualize host w =
      (Ok tt, set_trace (evs ++ trace w)
                (set_nextFrame nf (set_frames fr (set_currentVisualizerAnimation cur w))))
    ∧ forallb visEvent evs = true
    ∧ (oneLoop w →
       oneLoop (set_trace (evs ++ trace w)
                  (set_nextFrame nf (set_frames fr (set_currentVisualizerAnimation cur w))))).
Proof.
  assert (∃ cur fr nf evs,
    visualize host w =
      (Ok tt, set_trace (evs ++ trace w)
                (set_nextFrame nf (set_frames fr (set_currentVisualizerAnimation cur w))))
    ∧ forallb visEvent evs = true) as (cur & fr' & nf' & evs & E & Hvis).
  { destruct_world w.
    remember (visualize host _) as p eqn:Hp.
    unfold visualize, drawBarGraph, drawKaleidoscope, drawKaleidoscopeB, draw in Hp.
    sym Hp; subst p;
    eexists _, _, _; close_run ltac:(split; [reflexivity | reflexivity]). }
  exists cur, fr', nf', evs. split_and!; [done..|].
  intros H. destruct (visualize_loop host w H) as (_ & Ho & _).
  unfold exec in Ho. by rewrite E in Ho.
Qed.

(** ** utils.js *)

Lemma outputEvent_inert (evs : list Event) :
  forallb outputEvent evs = true → forallb inert evs = true.
Proof. apply forallb_impl. by intros [|[]| | |]. Qed.

Lemma ensureAnalyserOutput_returns host w :
  result (ensureAnalyserOutput host) w = Ok tt.
Proof.
  destruct_world w. unfold result.
  remember (ensureAnalyserOutput host _) as p eqn:Hp.
  unfold ensureAnalyserOutput in Hp. sym Hp; by subst p.
Qed.

(** What [ensureAnalyserOutput] can change: the analyser, of which it keeps
    the inputs, and the trace. *)
Lemma ensureAnalyserOutput_run host w :
  ∃ a' evs,
    ensureAnalyserOutput host w =
      (Ok tt, set_trace (evs ++ Enter FnEnsureAnalyserOutput :: trace w)
                (set_analyser a' w))
    ∧ forallb outputEvent evs = true
    ∧ inputs <$> a' = inputs <$> analyser w.
Proof.
  destruct_world w.
  remember (ensureAnalyserOutput host _) as p eqn:Hp.
  unfold ensureAnalyserOutput in Hp.
  sym Hp; subst p;
  eexists _; close_run ltac:(split_and!; reflexivity).
Qed.

(** What [stopTone] can change: it clears [source], may mark a node
    stopped, and adds inert events to the trace. *)
Lemma stopTone_run host w :
  ∃ ns' evs,
    stopTone host w =
      (Ok tt, set_trace (evs ++ trace w) (set_source None (set_nodes ns' w)))
    ∧ forallb inert evs = true.
Proof.
  destruct_world w.
  remember (stopTone host _) as p eqn:Hp.
  unfold stopTone in Hp.
  sym Hp; subst p;
  eexists _; close_run ltac:(split_and!; reflexivity).
Qed.

Ltac known_call H s ::=
  lazymatch s with
  | whiteNoiseLoop ?h ?a ?len 0 (replicate ?len _) ?w =>
      rewrite (whiteNoiseLoop_full h a len w) in H
  | pinkNoiseLoop ?h ?a ?len 0 pinkZero (replicate ?len _) ?w =>
      rewrite (pinkNoiseLoop_full h a len w) in H
  | visualize ?h ?w =>
      let cur := fresh "cur" in
      let fr' := fresh "fr'" in
      let nf' := fresh "nf'" in
      let evs := fresh "evs" in
      let E := fresh "E" in
      let Hvis := fresh "Hvis" in
      let Hloop := fresh "Hloop" in
      destruct (visualize_run h w) as (cur & fr' & nf' & evs & E & Hvis & Hloop);
      rewrite E in H; clear E
  | ensureAnalyserOutput ?h ?w =>
      let a' := fresh "an'" in
      let evs := fresh "evs" in
      let E := fresh "E" in
      let Hout := fresh "Hout" in
      let Hin := fresh "Hinert" in
      let Han := fresh "Han" in
      destruct (ensureAnalyserOutput_run h w) as (a' & evs & E & Hout & Han);
      pose proof (outputEvent_inert evs Hout) as Hin;
      rewrite E in H; clear E;
      cbv beta iota delta [analyser] in Han
  | stopTone ?h ?w =>
      let ns' := fresh "ns'" in
      let evs := fresh "evs" in
      let E := fresh "E" in
      let Hin := fresh "Hinert" in
      destruct (stopTone_run h w) as (ns' & evs & E & Hin);
      rewrite E in H; clear E
  end.

Lemma visEvent_quiet (e : Event) : visEvent e = true → quiet e = true.
Proof. destruct e as [|[]| | |]; done. Qed.

(** Rewrites the goal with the outcomes of the tests a path went through. *)
Ltac use_tests :=
  repeat match goal with
  | H : throws _ _ = _ |- _ => rewrite H
  | H : String.eqb _ _ = _ |- _ => rewrite H
  | H : String.prefix _ _ = _ |- _ => rewrite H
  | H : isNaN _ = _ |- _ => rewrite H
  | H : le_zero _ = _ |- _ => rewrite H
  | H : bool_decide _ = _ |- _ => rewrite H
  end.

Lemma ensuredFirst_inert_app ph (l1 l2 : list Event) :
  forallb inert l1 = true →
  ensuredFirst ph (l1 ++ l2) = ensuredFirst ph l2.
Proof.
  revert ph. induction l1 as [|e l1 IH]; intros ph H; [done|].
  cbn in H. apply andb_prop in H as [He H].
  destruct e as [|c| | |]; cbn in *; try done; try (by apply IH).
  destruct (createsOrConnects c); [done | by apply IH].
Qed.

Ltac ensured_tac :=
  emitted_eval;
  repeat first [ rewrite rev_app_distr | progress cbn [rev] ];
  repeat first [ rewrite <- app_assoc | progress cbn [app] ];
  repeat first
    [ reflexivity
    | rewrite ensuredFirst_inert_app by (rewrite forallb_rev; assumption)
    | rewrite ensuredFirst_quiet
        by (rewrite forallb_rev; eapply forallb_impl; [apply visEvent_quiet | assumption])
    | progress cbn [ensuredFirst createsOrConnects] ].

Lemma playTone_outcome host ar f w :
  let w' := exec (playTone host ar f) w in
  result (playTone host ar f) w = Ok tt ∧
  ensuredFirst NothingEnsured (emitted w w') = true ∧
  hd_error (emitted w w') = Some (Enter FnEnsureAudioContextActive) ∧
  match failure host f w with
  | Some ResumeFailed =>
      source w' = source w ∧ nodes w' = nodes w ∧ analyser w' = analyser w ∧
      nextNode w' = nextNode w ∧ frames w' = frames w ∧
      hd_error (trace w') =
        Some (Alert "Error playing tone: AudioContext could not be resumed.")
  | Some InvalidFrequency =>
      source w' = None ∧ nextNode w' = nextNode w ∧ inputsOf w' = inputsOf w ∧
      frames w' = frames w ∧
      hd_error (trace w') =
        Some (Alert "Error playing tone: Invalid frequency value. Must be a number greater than 0.")
  | Some MissingSelection =>
      source w' = None ∧ nextNode w' = nextNode w ∧ inputsOf w' = inputsOf w ∧
      frames w' = frames w ∧
      hd_error (trace w') =
        Some (Alert "Error playing tone: Waveform or noise type selection is missing. Please check the UI.")
  | Some OscillatorFailed =>
      source w' = None ∧ frames w' = frames w ∧
      hd_error (trace w') = Some (Alert "Error playing tone: host exception")
  | None => True
  end.
Proof.
  destruct_world w. unfold result, exec.
  remember (playTone host ar f _) as p eqn:Hp.
  unfold playTone, ensureAudioContextActive, createWhiteNoise, createPinkNoise in Hp.
  sym Hp; subst p; cbn [fst snd].
  all: split; [reflexivity|].
  all: split; [ensured_tac|].
  all: split; [emitted_eval; repeat first [ rewrite rev_app_distr | progress cbn [rev] ]; repeat first [ rewrite <- app_assoc | progress cbn [app] ]; reflexivity|].
  all: unfold failure, resumeFails, inputsOf;
       cbn [ctxState analyser nodes nextNode source frames trace waveformInput
            noiseTypeInput andb orb].
  all: repeat match goal with a : option AnalyserNode |- _ => destruct a end;
       try discriminate; use_tests;
       rewrite ?bool_decide_eq_false_2 by discriminate;
       rewrite ?bool_decide_eq_true_2 by reflexivity;
       cbn [andb orb]; try exact I; split_and!; try reflexivity;
       cbn in Han; by injection Han.
Qed.

(** ** playTone and stopTone *)

(** C1 (as amended). When [playTone] is given a frequency that is NaN or not
    above zero, the error does not reach the caller: the [catch] of
    [playTone] takes it and [playTone] returns normally.  The call creates no
    node, connects nothing to the analyser and leaves the frame queue alone.
    If the context could not be resumed, the source, the nodes and the
    analyser are untouched; otherwise the last thing that happened is the
    alert with the invalid-frequency message. *)
Theorem playTone_invalid_frequency host ar f w :
  isNaN f || le_zero f = true →
  let w' := exec (playTone host ar f) w in
  result (playTone host ar f) w = Ok tt ∧
  nextNode w' = nextNode w ∧ frames w' = frames w ∧
  if resumeFails host w
  then source w' = source w ∧ nodes w' = nodes w ∧ analyser w' = analyser w
  else inputsOf w' = inputsOf w ∧
       hd_error (trace w') =
         Some (Alert "Error playing tone: Invalid frequency value. Must be a number greater than 0.").
Proof.
  intros Hf w'.
  destruct (playTone_outcome host ar f w) as (Hr & _ & _ & Hcase).
  fold w' in Hcase. unfold failure in Hcase. rewrite Hf in Hcase.
  destruct (resumeFails host w); intuition.
Qed.

(** The frequency check lets [+Infinity] through. *)
Lemma playTone_accepts_infinity :
  isFinite PosInfinity = false ∧
  isNaN PosInfinity || le_zero PosInfinity = false ∧
  source (exec (playTone quietHost exact PosInfinity) whiteSelected) = Some 0.
Proof. by vm_compute. Qed.

(** C1, counterexample. A 440 Hz tone is playing; [playTone] is called with
    the frequency 0.  It does not throw, and the tone has been stopped. *)
Lemma playTone_invalid_stops_tone :
  isNaN (Finite 0) || le_zero (Finite 0) = true ∧
  source tonePlaying = Some 0 ∧
  result (playTone quietHost exact (Finite 0)) tonePlaying = Ok tt ∧
  source (exec (playTone quietHost exact (Finite 0)) tonePlaying) = None ∧
  stopped <$> nodes (exec (playTone quietHost exact (Finite 0)) tonePlaying) !! 0
    = Some true.
Proof. by vm_compute. Qed.

(** The play button checks the frequency itself and does not call
    [playTone] with a bad one: the tone keeps playing. *)
Lemma onPlayToneClick_invalid host ar f w :
  isNaN f || le_zero f = true →
  let w' := exec (onPlayToneClick host ar f) w in
  result (onPlayToneClick host ar f) w = Ok tt ∧
  source w' = source w ∧ nodes w' = nodes w ∧ analyser w' = analyser w.
Proof.
  intros Hf. destruct_world w. unfold result, exec.
  remember (onPlayToneClick host ar f _) as p eqn:Hp.
  unfold onPlayToneClick in Hp. rewrite Hf in Hp.
  sym Hp. by subst p.
Qed.

(** C2 (as amended). [stopTone] never throws and always leaves [source]
    [null]; it does nothing at all when [source] is already [null], so
    calling it twice is calling it once.  Otherwise it calls [stop()] on the
    producer, logging the error if that throws.  It never touches the
    analyser: whatever was connected remains connected.  In particular
    [stopTone] after [playTone] leaves [source] [null]. *)
Theorem stopTone_halts_and_keeps_connections host w :
  let w' := exec (stopTone host) w in
  result (stopTone host) w = Ok tt ∧
  source w' = None ∧
  analyser w' = analyser w ∧
  exec (stopTone host) w' = w' ∧
  match source w with
  | None => w' = w
  | Some n =>
      if throws host (Stop n)
      then emitted w w' = [ConsoleError "Error stopping tone:"] ∧ nodes w' = nodes w
      else emitted w w' = [Did (Stop n)] ∧
           stopped <$> nodes w' !! n = (λ _, true) <$> nodes w !! n
  end ∧
  ∀ host' ar f, source (exec (stopTone host) (exec (playTone host' ar f) w)) = None.
Proof.
  assert (Hsrc : ∀ v, source (exec (stopTone host) v) = None).
  { intros v. destruct_world v. unfold exec.
    remember (stopTone host _) as p eqn:Hp. unfold stopTone in Hp.
    sym Hp; by subst p. }
  intros w'. split_and!; [| apply Hsrc | | | | intros; apply Hsrc ]; subst w'.
  - destruct_world w. unfold result.
    remember (stopTone host _) as p eqn:Hp. unfold stopTone in Hp.
    sym Hp; by subst p.
  - destruct_world w. unfold exec.
    remember (stopTone host _) as p eqn:Hp. unfold stopTone in Hp.
    sym Hp; by subst p.
  - pose proof (Hsrc w) as Hn. destruct (exec (stopTone host) w) as [? ? ? ? so' ? ? ? ? ? ? ? ? ? ? ?].
    cbn in Hn. by subst so'.
  - destruct_world w. unfold exec. cbn [source].
    remember (stopTone host _) as p eqn:Hp. unfold stopTone in Hp.
    sym Hp; subst p; cbn [snd]; [| |done].
    + split; [by emitted_eval|done].
    + split; [by emitted_eval|]. cbn [nodes].
      rewrite lookup_alter_eq. by destruct (ns !! n).
Qed.

(** C2, counterexample. After [playTone(440)] and [stopTone()] the
    oscillator is stopped and [source] is [null], but the oscillator is still
    connected to the analyser: [stopTone] made one host call, [stop()]. *)
Lemma stopTone_keeps_connection :
  gt_zero (Finite (Qc_of_Z 440)) = true ∧
  source (exec (stopTone quietHost) tonePlaying) = None ∧
  0 ∈ inputsOf (exec (stopTone quietHost) tonePlaying) ∧
  emitted tonePlaying (exec (stopTone quietHost) tonePlaying) = [Did (Stop 0)].
Proof.
  split_and!; by vm_compute.
Qed.

(** C3 (as amended). [playTone] never throws: whatever goes wrong on the
    activation path is caught by [playTone] itself, logged and shown in an
    alert.  After a failed resume the source, the nodes, the analyser and the
    frame queue are as before; after an invalid frequency, a missing
    selection or a failure of the oscillator branch, [source] is [null]. *)
Theorem playTone_catches_activation_errors host ar f w :
  let w' := exec (playTone host ar f) w in
  result (playTone host ar f) w = Ok tt ∧
  match failure host f w with
  | Some ResumeFailed =>
      source w' = source w ∧ nodes w' = nodes w ∧ analyser w' = analyser w ∧
      nextNode w' = nextNode w ∧ frames w' = frames w ∧
      hd_error (trace w') =
        Some (Alert "Error playing tone: AudioContext could not be resumed.")
  | Some InvalidFrequency =>
      source w' = None ∧ nextNode w' = nextNode w ∧
      hd_error (trace w') =
        Some (Alert "Error playing tone: Invalid frequency value. Must be a number greater than 0.")
  | Some MissingSelection =>
      source w' = None ∧ nextNode w' = nextNode w ∧
      hd_error (trace w') =
        Some (Alert "Error playing tone: Waveform or noise type selection is missing. Please check the UI.")
  | Some OscillatorFailed =>
      source w' = None ∧ frames w' = frames w ∧
      hd_error (trace w') = Some (Alert "Error playing tone: host exception")
  | None => True
  end.
Proof.
  intros w'.
  destruct (playTone_outcome host ar f w) as (Hr & _ & _ & Hcase).
  fold w' in Hcase. split; [done|].
  destruct (failure host f w) as [[]|]; intuition.
Qed.

(** C3, counterexample. The browser rejects [resume()]: [playTone] returns
    normally all the same, having shown an alert. *)
Lemma playTone_swallows_resume_failure :
  ctxState initialWorld = suspended ∧
  throws blockedHost Resume = true ∧
  result (playTone blockedHost exact (Finite (Qc_of_Z 440))) initialWorld = Ok tt ∧
  hd_error (trace (exec (playTone blockedHost exact (Finite (Qc_of_Z 440))) initialWorld))
    = Some (Alert "Error playing tone: AudioContext could not be resumed.").
Proof. by vm_compute. Qed.

(** In the noise branches [source] is assigned before the producer is
    connected and started, unlike in the oscillator branch: when connecting
    throws, [source] holds a producer that was never started. *)
Lemma playTone_noise_connect_failure :
  let w' := exec (playTone connectFailsHost exact (Finite (Qc_of_Z 440))) whiteSelected in
  source w' = Some 0 ∧ started <$> nodes w' !! 0 = Some false ∧ inputsOf w' = ∅.
Proof. by vm_compute. Qed.

(** ** ensureAnalyserOutput *)

(** C9. With the context closed, [ensureAnalyserOutput] builds the error
    "Analyser node is invalid or closed." and hands it to its own [catch]:
    it logs, alerts and returns normally. *)
Theorem ensureAnalyserOutput_closed_returns :
  ctxState closedWorld = closed ∧
  result (ensureAnalyserOutput quietHost) closedWorld = Ok tt ∧
  emitted closedWorld (exec (ensureAnalyserOutput quietHost) closedWorld) =
    [ Enter FnEnsureAnalyserOutput;
      ConsoleError "Error ensuring analyser output:";
      Alert "Error connecting analyser to output: Analyser node is invalid or closed." ].
Proof. by vm_compute. Qed.

(** On a live context the function connects the analyser to the destination
    every time it is called, and a second call changes nothing but the
    trace. *)
Lemma ensureAnalyserOutput_idempotent host w a :
  analyser w = Some a → ctxState w ≠ closed →
  throws host ConnectAnalyserToDestination = false →
  let w1 := exec (ensureAnalyserOutput host) w in
  let w2 := exec (ensureAnalyserOutput host) w1 in
  analyser w1 = Some {| fftSize := fftSize a; toDestination := true; inputs := inputs a |} ∧
  analyser w2 = analyser w1 ∧
  emitted w w1 = [Enter FnEnsureAnalyserOutput; Did ConnectAnalyserToDestination] ∧
  emitted w1 w2 = [Enter FnEnsureAnalyserOutput; Did ConnectAnalyserToDestination].
Proof.
  intros Ha Hc Ht. destruct_world w. cbn in Ha, Hc. subst an.
  unfold exec.
  remember (ensureAnalyserOutput host _) as p eqn:Hp. unfold ensureAnalyserOutput in Hp.
  sym Hp; try congruence; [by apply bool_decide_eq_true_1 in Heqb|]. subst p. cbn [snd].
  remember (ensureAnalyserOutput host _) as p eqn:Hp. unfold ensureAnalyserOutput in Hp.
  sym Hp; try congruence. subst p. cbn [snd].
  split_and!; try done; by emitted_eval.
Qed.

(** ** mp3Handler.js *)

Lemma wraps_app (l1 l2 : list Event) : wraps (l1 ++ l2) = wraps l1 + wraps l2.
Proof. induction l1 as [|e l1 IH]; cbn; [done | rewrite IH; lia]. Qed.

Lemma wraps_rev (l : list Event) : wraps (rev l) = wraps l.
Proof.
  induction l as [|e l IH]; [done|].
  cbn. rewrite wraps_app, IH. cbn. lia.
Qed.

Lemma wraps_output (evs : list Event) : forallb outputEvent evs = true → wraps evs = 0.
Proof.
  induction evs as [|e evs IH]; [done|].
  cbn. intros [He H]%andb_prop. rewrite (IH H). by destruct e as [|[]| | |].
Qed.

Lemma wraps_vis (evs : list Event) : forallb visEvent evs = true → wraps evs = 0.
Proof.
  induction evs as [|e evs IH]; [done|].
  cbn. intros [He H]%andb_prop. rewrite (IH H). by destruct e as [|[]| | |].
Qed.

Lemma notConnectOrPlay_output (evs : list Event) :
  forallb outputEvent evs = true → forallb notConnectOrPlay evs = true.
Proof. apply forallb_impl. by intros [|[]| | |]. Qed.

Ltac wraps_tac :=
  emitted_eval; rewrite wraps_rev;
  repeat first
    [ rewrite wraps_app
    | rewrite wraps_output by assumption
    | rewrite wraps_vis by assumption
    | progress cbn [wraps isWrap Nat.add] ];
  try reflexivity.

Ltac head_tac :=
  emitted_eval;
  repeat first [ rewrite rev_app_distr | progress cbn [rev] ];
  repeat first [ rewrite <- app_assoc | progress cbn [app] ];
  reflexivity.

Lemma trace_grows_from_prefix (w w' : World) (evs : list Event) :
  trace w' = evs ++ trace w → trace w' = rev (emitted w w') ++ trace w.
Proof. intros E. by rewrite (emitted_prefix w w' evs E), rev_involutive. Qed.

Ltac grows_tac :=
  match goal with
  | |- trace ?w' = rev (emitted ?w ?w') ++ trace ?w =>
      let t := eval cbv beta iota delta [trace] in (trace w') in
      let b := eval cbv beta iota delta [trace] in (trace w) in
      let p := prefix_of t b in
      apply (trace_grows_from_prefix w w' p);
      cbv beta iota delta [trace];
      repeat first [ rewrite <- app_assoc | progress cbn [app] ]; reflexivity
  end.

Lemma setupAudioNodes_outcome host w :
  let w' := exec (setupAudioNodes host) w in
  result (setupAudioNodes host) w = Ok tt ∧
  ensuredFirst NothingEnsured (emitted w w') = true ∧
  hd_error (emitted w w') = Some (Enter FnEnsureAudioContextActive) ∧
  trace w' = rev (emitted w w') ++ trace w ∧
  if mediaElementSourceCreated w
  then wraps (emitted w w') = 0 ∧ mediaElementSourceCreated w' = true ∧
       mp3Source w' = mp3Source w ∧ nextNode w' = nextNode w
  else wraps (emitted w w') = (if mediaElementSourceCreated w' then 1 else 0) ∧
       (if mediaElementSourceCreated w' then mp3Source w' = Some (nextNode w)
        else mp3Source w' = mp3Source w) ∧
       (if resumeFails host w || String.eqb (src (audioPlayer w)) "" ||
           throws host CreateMediaElementSource
        then True else mediaElementSourceCreated w' = true).
Proof.
  destruct_world w. unfold result, exec.
  remember (setupAudioNodes host _) as p eqn:Hp.
  unfold setupAudioNodes, ensureAudioContextActive in Hp.
  sym Hp; subst p; cbn [fst snd].
  all: split; [reflexivity|].
  all: split; [ensured_tac|].
  all: split; [head_tac|].
  all: split; [grows_tac|].
  all: unfold resumeFails;
       cbn [mediaElementSourceCreated mp3Source nextNode ctxState audioPlayer src];
       use_tests; cbn [andb orb]; try exact I.
  all: split_and?; try reflexivity; try exact I; wraps_tac.
  all: destruct mc; by split_and?.
Qed.

(** C10. When the element has been wrapped before
    ([mediaElementSourceCreated]) but [mp3Source] is [null], as [stopMp3]
    leaves them, [setupAudioNodes] returns normally without connecting a
    producer, without calling [play()] and without starting the
    visualization: inputs of the analyser, audio element, nodes and frame
    queue are as before, and [mp3Source] is still [null].  With the context
    running and a file in the element, the last thing it does is to warn
    that the source "was created but is null". *)
Theorem setupAudioNodes_after_stopMp3 host w :
  mediaElementSourceCreated w = true → mp3Source w = None →
  let w' := exec (setupAudioNodes host) w in
  result (setupAudioNodes host) w = Ok tt ∧
  forallb notConnectOrPlay (emitted w w') = true ∧
  inputsOf w' = inputsOf w ∧ audioPlayer w' = audioPlayer w ∧
  nodes w' = nodes w ∧ mp3Source w' = None ∧ frames w' = frames w ∧
  currentVisualizerAnimation w' = currentVisualizerAnimation w ∧
  if resumeFails host w || String.eqb (src (audioPlayer w)) "" then True
  else hd_error (trace w') =
         Some (ConsoleWarn "MediaElementSource was created but is null").
Proof.
  intros Hc Hs. destruct_world w. cbn in Hc, Hs. subst mc ms. unfold result, exec.
  remember (setupAudioNodes host _) as p eqn:Hp.
  unfold setupAudioNodes, ensureAudioContextActive in Hp.
  sym Hp; subst p; cbn [fst snd].
  all: split; [reflexivity|].
  all: split;
    [ emitted_eval; rewrite forallb_rev;
      repeat first [ rewrite forallb_app | progress cbn [forallb notConnectOrPlay andb]
                   | rewrite notConnectOrPlay_output by assumption ];
      reflexivity |].
  all: unfold inputsOf, resumeFails;
       cbn [analyser audioPlayer nodes mp3Source frames currentVisualizerAnimation
            ctxState src trace];
       use_tests; cbn [andb orb].
  all: split_and!; try reflexivity; try exact I.
  all: repeat match goal with a : option AnalyserNode |- _ => destruct a end;
       try discriminate; try reflexivity; cbn in Han; by injection Han.
Qed.

Lemma stopMp3_outcome host w :
  let w' := exec (stopMp3 host) w in
  result (stopMp3 host) w = Ok tt ∧
  trace w' = rev (emitted w w') ++ trace w ∧
  wraps (emitted w w') = 0 ∧
  mediaElementSourceCreated w' = mediaElementSourceCreated w ∧
  nextNode w' = nextNode w ∧
  match mp3Source w with
  | None => mp3Source w' = None
  | Some n =>
      if throws host Pause || revokeThrows host w
      then mp3Source w' = Some n
      else mp3Source w' = None ∧ paused (audioPlayer w') = true ∧
           src (audioPlayer w') = src (audioPlayer w) ∧
           inputsOf w' =
             (if throws host (Disconnect n) then inputsOf w else inputsOf w ∖ {[ n ]})
  end.
Proof.
  destruct_world w. unfold result, exec.
  remember (stopMp3 host _) as p eqn:Hp.
  unfold stopMp3 in Hp.
  sym Hp; subst p; cbn [fst snd].
  all: split; [reflexivity|].
  all: split; [grows_tac|].
  all: split; [wraps_tac|].
  all: unfold inputsOf, revokeThrows;
       cbn [mediaElementSourceCreated mp3Source nextNode audioPlayer src paused analyser inputs];
       use_tests; cbn [andb orb negb].
  all: split_and?; try reflexivity.
  all: rewrite empty_difference_L;
       match goal with |- context [throws ?h ?c] => by destruct (throws h c) end.
Qed.


(** C4. In every run of [playTone] and of [setupAudioNodes] the first thing
    that happens is the call of [ensureAudioContextActive]; and no buffer,
    oscillator, buffer source or media element source is created, and no
    producer connected to the analyser, unless [ensureAudioContextActive] and
    after it [ensureAnalyserOutput] have been called before. *)
Theorem activation_ensures_engine_first host ar f w :
  (hd_error (emitted w (exec (playTone host ar f) w))
     = Some (Enter FnEnsureAudioContextActive) ∧
   ensuredFirst NothingEnsured (emitted w (exec (playTone host ar f) w)) = true) ∧
  (hd_error (emitted w (exec (setupAudioNodes host) w))
     = Some (Enter FnEnsureAudioContextActive) ∧
   ensuredFirst NothingEnsured (emitted w (exec (setupAudioNodes host) w)) = true).
Proof.
  destruct (playTone_outcome host ar f w) as (_ & H1 & H2 & _).
  destruct (setupAudioNodes_outcome host w) as (_ & H3 & H4 & _).
  done.
Qed.

(** A session on the media element without [clearMp3]. *)





(** [stopMp3], on a source that is active, drops the reference and leaves
    the flag set. *)
Lemma stopMp3_unbinds host w n :
  mp3Source w = Some n →
  throws host Pause = false → revokeThrows host w = false →
  let w' := exec (stopMp3 host) w in
  mediaElementSourceCreated w' = mediaElementSourceCreated w ∧
  mp3Source w' = None ∧ src (audioPlayer w') = src (audioPlayer w).
Proof.
  intros Hs Hp Hr w'.
  destruct (stopMp3_outcome host w) as (_ & _ & _ & Hc & _ & H).
  fold w' in H, Hc. rewrite Hs, Hp, Hr in H. cbn [orb] in H. intuition.
Qed.

(** ** The shape of the frame queue is an invariant of the page *)




(** ** The theorems at concrete inputs *)

Lemma quietHost_random (i : nat) :
  (0 ≤ random quietHost i)%Qc ∧ (random quietHost i < 1)%Qc.
Proof.
  cbn [random quietHost].
  assert (H : i mod 4 < 4) by (apply Nat.mod_upper_bound; lia).
  destruct (i mod 4) as [|[|[|[|k]]]]; [split; by vm_compute.. | lia].
Qed.

(** C1 at the frequency 0 while a tone is playing. *)
Lemma playTone_invalid_frequency_witness :
  isNaN (Finite 0) || le_zero (Finite 0) = true ∧
  let w' := exec (playTone quietHost exact (Finite 0)) tonePlaying in
  result (playTone quietHost exact (Finite 0)) tonePlaying = Ok tt ∧
  nextNode w' = nextNode tonePlaying ∧ frames w' = frames tonePlaying ∧
  if resumeFails quietHost tonePlaying
  then source w' = source tonePlaying ∧ nodes w' = nodes tonePlaying ∧
       analyser w' = analyser tonePlaying
  else inputsOf w' = inputsOf tonePlaying ∧
       hd_error (trace w') =
         Some (Alert "Error playing tone: Invalid frequency value. Must be a number greater than 0.").
Proof.
  split; [reflexivity|].
  apply (playTone_invalid_frequency quietHost exact (Finite 0) tonePlaying).
  reflexivity.
Defined.


(** C6 on the page as loaded, without rounding error. *)
Lemma createWhiteNoise_samples_witness :
  Rounding (double exact) ∧ Rounding (float32 exact) ∧
  (∀ i, (0 ≤ random quietHost i)%Qc ∧ (random quietHost i < 1)%Qc) ∧
  throws quietHost (CreateBuffer (2 * sampleRate quietHost)) = false ∧
  throws quietHost CreateBufferSource = false ∧
  ∃ b : list Qc,
    result (createWhiteNoise quietHost exact) initialWorld = Ok (nextNode initialWorld) ∧
    bufferOf (exec (createWhiteNoise quietHost exact) initialWorld) (nextNode initialWorld)
      = Some b ∧
    loops (exec (createWhiteNoise quietHost exact) initialWorld) (nextNode initialWorld)
      = true ∧
    length b = 2 * sampleRate quietHost ∧
    (∀ i, i < 2 * sampleRate quietHost →
       b !! i = Some (float32 exact
                        (whiteSample exact (random quietHost (randomCalls initialWorld + i))))) ∧
    (∀ x, x ∈ b → (-1 ≤ x)%Qc ∧ (x ≤ 1)%Qc).
Proof.
  split_and!; [exact exact_rounding | exact exact_rounding | exact quietHost_random
              | reflexivity | reflexivity |].
  exact (createWhiteNoise_samples quietHost exact initialWorld
           exact_rounding exact_rounding quietHost_random eq_refl eq_refl).
Defined.

(** C7 on the page as loaded, without rounding error. *)
Lemma createPinkNoise_kellet_witness :
  Rounding (double exact) ∧
  throws quietHost (CreateBuffer (2 * sampleRate quietHost)) = false ∧
  throws quietHost CreateBufferSource = false ∧
  let len := 2 * sampleRate quietHost in
  let w1 := exec (createPinkNoise quietHost exact) initialWorld in
  let w2 := exec (createPinkNoise quietHost exact) w1 in
  result (createPinkNoise quietHost exact) initialWorld = Ok (nextNode initialWorld) ∧
  bufferOf w1 (nextNode initialWorld) =
    Some (kelletFilter exact kelletZero
            (map (whiteSample exact) (draws quietHost (randomCalls initialWorld) len))) ∧
  bufferOf w2 (nextNode w1) =
    Some (kelletFilter exact kelletZero
            (map (whiteSample exact) (draws quietHost (randomCalls initialWorld + len) len))) ∧
  (∀ b, bufferOf w1 (nextNode initialWorld) = Some b → length b = len).
Proof.
  split_and!; [exact exact_rounding | reflexivity | reflexivity |].
  exact (createPinkNoise_kellet quietHost exact initialWorld exact_rounding eq_refl eq_refl).
Defined.

Lemma oneLoop_tonePlaying : oneLoop tonePlaying.
Proof.
  split; [vm_compute; lia|].
  right. exists 1, BarGraph. vm_compute. split_and!; [reflexivity | reflexivity | lia | lia].
Defined.

(** C8 while a tone is playing and the bar graph loop is running. *)
Lemma visualize_cancels_and_failure_stops_witness :
  oneLoop tonePlaying ∧
  let w1 := exec (visualize quietHost) tonePlaying in
  let w2 := exec (fireFrame quietHost) tonePlaying in
  (result (visualize quietHost) tonePlaying = Ok tt ∧ oneLoop w1 ∧
   (∀ id k, frames tonePlaying = [(id, k)] →
      hd_error (emitted tonePlaying w1) = Some (Did (CancelAnimationFrame id))) ∧
   (∀ p, p ∈ frames w1 → nextFrame tonePlaying ≤ p.1) ∧
   (∀ k, drawKindOf (visualizerType tonePlaying) = Some k →
      frameFails quietHost k = true → frames w1 = [])) ∧
  (result (fireFrame quietHost) tonePlaying = Ok tt ∧ oneLoop w2 ∧
   (∀ id k, frames tonePlaying = [(id, k)] → frameFails quietHost k = true →
      frames w2 = [] ∧
      ConsoleError (frameErrorMessage k) ∈ emitted tonePlaying w2 ∧
      ∀ host', fireFrame host' w2 = (Ok tt, w2))).
Proof.
  split; [exact oneLoop_tonePlaying|].
  exact (visualize_cancels_and_failure_stops quietHost tonePlaying oneLoop_tonePlaying).
Defined.

(** C10 on the page after a file was played and stopped. *)
Lemma setupAudioNodes_after_stopMp3_witness :
  mediaElementSourceCreated mediaStopped = true ∧ mp3Source mediaStopped = None ∧
  let w' := exec (setupAudioNodes quietHost) mediaStopped in
  result (setupAudioNodes quietHost) mediaStopped = Ok tt ∧
  forallb notConnectOrPlay (emitted mediaStopped w') = true ∧
  inputsOf w' = inputsOf mediaStopped ∧ audioPlayer w' = audioPlayer mediaStopped ∧
  nodes w' = nodes mediaStopped ∧ mp3Source w' = None ∧ frames w' = frames mediaStopped ∧
  currentVisualizerAnimation w' = currentVisualizerAnimation mediaStopped ∧
  if resumeFails quietHost mediaStopped || String.eqb (src (audioPlayer mediaStopped)) ""
  then True
  else hd_error (trace w') =
         Some (ConsoleWarn "MediaElementSource was created but is null").
Proof.
  split_and!; [reflexivity | reflexivity |].
  exact (setupAudioNodes_after_stopMp3 quietHost mediaStopped eq_refl eq_refl).
Defined.

(** * Further properties of the code

    What follows goes beyond the claims of the specification: the functions
    and listeners the claims leave out, and what the code above does on the
    paths the claims do not look at. *)

(** ** More symbolic execution *)

(** Symbolic execution that follows the hypotheses where they decide a
    test, and evaluates a test on closed terms. *)
Ltac sym_step_with H :=
  lazymatch type of H with
  | _ = ?t =>
      let s := scrutinee t in
      first [ match goal with E : s = _ |- _ => rewrite E in H end
            | lazymatch s with
              | throws ?h ?c =>
                  match goal with
                  | E : ∀ c', throws h c' = false |- _ => rewrite (E c) in H
                  end
              end
            | lazymatch s with
              | String.eqb _ _ => idtac
              | bool_decide _ => idtac
              end;
              let v := eval vm_compute in s in
              lazymatch v with
              | true => change s with true in H
              | false => change s with false in H
              end
            | known_call H s
            | destruct s eqn:? ]
  end; js_eval H.

Ltac sym_with H := js_eval H; repeat sym_step_with H.

(** Closes a path that went against the hypothesis [H] on the host. *)
Ltac against H :=
  try (exfalso;
       repeat match goal with
              | E : bool_decide _ = _ |- _ => rewrite E in H
              | E : throws _ _ = _ |- _ => rewrite E in H
              | E : String.eqb _ _ = _ |- _ => rewrite E in H
              | E : String.prefix _ _ = _ |- _ => rewrite E in H
              end;
       cbn [andb orb negb] in H; discriminate H).

(** Closes a path on which [resume()] was rejected although the hypothesis
    says it is not. *)
Ltac close_contradiction :=
  try (exfalso;
       match goal with
       | H : resumeFails _ _ = false |- _ =>
           unfold resumeFails in H; cbn [ctxState] in H;
           repeat match goal with
                  | E : bool_decide _ = _ |- _ => rewrite E in H
                  | E : throws _ _ = _ |- _ => rewrite E in H
                  end; discriminate H
       end).

(** Symbolic execution of two runs side by side: the summary of a callee
    stays in the context, so that the second run meets the same outcome. *)
Ltac summarise H s :=
  lazymatch s with
  | visualize ?h ?w =>
      let cur := fresh "cur" in
      let fr' := fresh "fr'" in
      let nf' := fresh "nf'" in
      let evs := fresh "evs" in
      let E := fresh "E" in
      let Hvis := fresh "Hvis" in
      let Hloop := fresh "Hloop" in
      destruct (visualize_run h w) as (cur & fr' & nf' & evs & E & Hvis & Hloop);
      rewrite E in H
  | ensureAnalyserOutput ?h ?w =>
      let a' := fresh "an'" in
      let evs := fresh "evs" in
      let E := fresh "E" in
      let Hout := fresh "Hout" in
      let Han := fresh "Han" in
      destruct (ensureAnalyserOutput_run h w) as (a' & evs & E & Hout & Han);
      rewrite E in H;
      cbv beta iota delta [analyser] in Han
  | stopTone ?h ?w =>
      let ns' := fresh "ns'" in
      let evs := fresh "evs" in
      let E := fresh "E" in
      let Hin := fresh "Hinert" in
      destruct (stopTone_run h w) as (ns' & evs & E & Hin);
      rewrite E in H
  end.

Ltac sym_step_keep H :=
  lazymatch type of H with
  | _ = ?t =>
      let s := scrutinee t in
      first [ match goal with E : s = _ |- _ => rewrite E in H end
            | summarise H s
            | destruct s eqn:? ]
  end; js_eval H.

Ltac sym_keep H := js_eval H; repeat sym_step_keep H.

(** ** utils.js *)

(** X1. [ensureAudioContextActive] changes nothing but the state of the
    context and the trace.  It calls [resume()] only on a suspended context:
    if the browser accepts, the context is running; if it rejects, the
    function logs, alerts, and throws its own error "AudioContext could not
    be resumed.", the context still suspended.  On a context that is not
    suspended, a closed one included, it returns normally without a host
    call. *)
Theorem ensureAudioContextActive_outcome host w :
  let w' := exec (ensureAudioContextActive host) w in
  w' = set_trace (trace w') (set_ctxState (ctxState w') w) ∧
  if bool_decide (ctxState w = suspended)
  then
    if throws host Resume
    then result (ensureAudioContextActive host) w
           = Throw (JsError "AudioContext could not be resumed.") ∧
         ctxState w' = suspended ∧
         emitted w w' =
           [ Enter FnEnsureAudioContextActive;
             ConsoleError "Failed to resume AudioContext:";
             Alert "Audio playback is blocked. Please interact with the page to enable sound." ]
    else result (ensureAudioContextActive host) w = Ok tt ∧
         ctxState w' = running ∧
         emitted w w' = [Enter FnEnsureAudioContextActive; Did Resume]
  else result (ensureAudioContextActive host) w = Ok tt ∧
       ctxState w' = ctxState w ∧
       emitted w w' = [Enter FnEnsureAudioContextActive].
Proof.
  destruct_world w. unfold result, exec. cbn [ctxState].
  remember (ensureAudioContextActive host _) as p eqn:Hp.
  unfold ensureAudioContextActive in Hp.
  sym Hp; subst p; cbn [fst snd]; (split; [reflexivity|]);
    split_and!; try reflexivity; try (by emitted_eval).
  all: match goal with E : bool_decide _ = true |- _ => by apply bool_decide_eq_true_1 in E end.
Qed.

(** X2. [ensureAnalyserOutput] never throws, whatever the browser does, and
    touches nothing but the analyser's connection to the destination and
    the trace: the inputs of the analyser and its [fftSize] are kept.  When
    the analyser exists, the context is not closed and the browser accepts
    the connection, the analyser is connected to the destination; in every
    other case the analyser is as before and an alert has been shown.
    Calling it again leaves the analyser as the first call left it. *)
Theorem ensureAnalyserOutput_reconnects host w :
  let w1 := exec (ensureAnalyserOutput host) w in
  result (ensureAnalyserOutput host) w = Ok tt ∧
  w1 = set_trace (trace w1) (set_analyser (analyser w1) w) ∧
  inputsOf w1 = inputsOf w ∧ fftSize <$> analyser w1 = fftSize <$> analyser w ∧
  (if bool_decide (analyser w = None) || bool_decide (ctxState w = closed) ||
      throws host ConnectAnalyserToDestination
   then analyser w1 = analyser w ∧
        ∃ msg, hd_error (trace w1) = Some (Alert ("Error connecting analyser to output: " ++ msg))
   else toDestination <$> analyser w1 = Some true ∧
        emitted w w1 = [Enter FnEnsureAnalyserOutput; Did ConnectAnalyserToDestination]) ∧
  analyser (exec (ensureAnalyserOutput host) w1) = analyser w1.
Proof.
  destruct_world w. unfold result, exec, inputsOf. cbn [analyser ctxState].
  remember (ensureAnalyserOutput host _) as p eqn:Hp. unfold ensureAnalyserOutput in Hp.
  sym Hp; subst p; cbn [fst snd analyser trace inputs];
    remember (ensureAnalyserOutput host _) as p eqn:Hp;
    unfold ensureAnalyserOutput in Hp;
    sym_with Hp; subst p; cbn [fst snd analyser trace inputs].
  all: use_tests; rewrite ?bool_decide_eq_true_2 by reflexivity;
       rewrite ?bool_decide_eq_false_2 by discriminate; cbn [orb].
  all: split_and!; try reflexivity; try (by eexists); try (by emitted_eval).
  all: by destruct a.
Qed.

(** ** toneGenerator.js *)

(** X3. With "none" selected as noise type, a frequency above zero, and a
    browser that lets the calls of the oscillator branch through,
    [playTone] leaves in [source] a new oscillator of the selected waveform
    (the oscillator keeps "sine" when the selection is not a waveform the
    browser knows) and of the given frequency, started, not stopped, and
    connected to the analyser, whose other inputs are kept; the context is
    not suspended afterwards. *)
Theorem playTone_starts_oscillator host ar f w waveform a :
  resumeFails host w = false →
  isNaN f || le_zero f = false →
  waveformInput w = Some waveform → noiseTypeInput w = Some "none" →
  analyser w = Some a →
  throws host CreateOscillator = false →
  throws host (SetType waveform) = false →
  throws host (SetValueAtTime (nextNode w) f) = false →
  throws host (Connect (nextNode w)) = false →
  throws host (Start (nextNode w)) = false →
  let n := nextNode w in
  let w' := exec (playTone host ar f) w in
  result (playTone host ar f) w = Ok tt ∧
  source w' = Some n ∧ nextNode w' = S n ∧
  nodes w' !! n =
    Some {| producer := OscillatorNode (if isOscillatorType waveform then waveform else "sine") f;
            started := true; stopped := false |} ∧
  inputsOf w' = {[ n ]} ∪ inputsOf w ∧
  ctxState w' ≠ suspended.
Proof.
  intros Hres [Hf1 Hf2]%orb_false_elim Hwf Hnt Han Ht1 Ht2 Ht3 Ht4 Ht5.
  destruct_world w. cbn in Hwf, Hnt, Han, Ht3, Ht4, Ht5. subst.
  unfold result, exec. cbn [nextNode].
  remember (playTone host ar f _) as p eqn:Hp.
  unfold playTone, ensureAudioContextActive in Hp.
  sym_with Hp; subst p; cbn [fst snd]; close_contradiction;
    try (cbn in Han; discriminate Han).
  all: unfold inputsOf; cbn [source nextNode nodes ctxState analyser inputs];
       rewrite !lookup_alter_eq, lookup_insert_eq; cbn [fmap option_fmap option_map producer started stopped].
  all: match goal with a0 : AnalyserNode |- _ => destruct a0; destruct a; cbn in Han; injection Han as -> end.
  all: split_and!; try done.
  match goal with E : bool_decide _ = false |- _ => by apply bool_decide_eq_false_1 in E end.
Qed.

(** X3 on the page as loaded, at 880 Hz. *)
Lemma playTone_starts_oscillator_witness :
  resumeFails quietHost initialWorld = false ∧
  isNaN (Finite (Qc_of_Z 880)) || le_zero (Finite (Qc_of_Z 880)) = false ∧
  waveformInput initialWorld = Some "sine" ∧ noiseTypeInput initialWorld = Some "none" ∧
  analyser initialWorld = Some {| fftSize := 2048; toDestination := true; inputs := ∅ |} ∧
  throws quietHost CreateOscillator = false ∧
  throws quietHost (SetType "sine") = false ∧
  throws quietHost (SetValueAtTime (nextNode initialWorld) (Finite (Qc_of_Z 880))) = false ∧
  throws quietHost (Connect (nextNode initialWorld)) = false ∧
  throws quietHost (Start (nextNode initialWorld)) = false ∧
  let n := nextNode initialWorld in
  let w' := exec (playTone quietHost exact (Finite (Qc_of_Z 880))) initialWorld in
  result (playTone quietHost exact (Finite (Qc_of_Z 880))) initialWorld = Ok tt ∧
  source w' = Some n ∧ nextNode w' = S n ∧
  nodes w' !! n =
    Some {| producer := OscillatorNode (if isOscillatorType "sine" then "sine" else "sine")
                          (Finite (Qc_of_Z 880));
            started := true; stopped := false |} ∧
  inputsOf w' = {[ n ]} ∪ inputsOf initialWorld ∧
  ctxState w' ≠ suspended.
Proof.
  split_and!; [reflexivity..|].
  exact (playTone_starts_oscillator quietHost exact (Finite (Qc_of_Z 880)) initialWorld "sine" _
           eq_refl eq_refl eq_refl eq_refl eq_refl eq_refl eq_refl eq_refl eq_refl eq_refl).
Defined.

(** X4. With "white" or "pink" selected, [playTone] leaves in [source] a new
    buffer source that loops, is started and is connected to the analyser.
    Its buffer holds two seconds of samples made from the next
    [2 * sampleRate] draws of [Math.random]: for white noise each draw
    mapped to [-1, 1), for pink noise the draws run through the filter from
    zeroed filter variables.  The frequency and the waveform play no part. *)
Theorem playTone_starts_noise host ar f w waveform noiseType a :
  resumeFails host w = false →
  isNaN f || le_zero f = false →
  waveformInput w = Some waveform → noiseTypeInput w = Some noiseType →
  noiseType = "white" ∨ noiseType = "pink" →
  analyser w = Some a →
  throws host (CreateBuffer (2 * sampleRate host)) = false →
  throws host CreateBufferSource = false →
  throws host (Connect (nextNode w)) = false →
  throws host (Start (nextNode w)) = false →
  let n := nextNode w in
  let w' := exec (playTone host ar f) w in
  let rs := draws host (randomCalls w) (2 * sampleRate host) in
  result (playTone host ar f) w = Ok tt ∧
  source w' = Some n ∧ nextNode w' = S n ∧
  bufferOf w' n =
    Some (if String.eqb noiseType "white"
          then map (λ r, float32 ar (whiteSample ar r)) rs
          else pinkSamples ar pinkZero rs) ∧
  loops w' n = true ∧
  started <$> nodes w' !! n = Some true ∧
  inputsOf w' = {[ n ]} ∪ inputsOf w ∧
  randomCalls w' = randomCalls w + 2 * sampleRate host.
Proof.
  intros Hres [Hf1 Hf2]%orb_false_elim Hwf Hnt Hkind Han Ht1 Ht2 Ht3 Ht4.
  destruct_world w. cbn in Hwf, Hnt, Han, Ht3, Ht4. subst wi ni an.
  unfold result, exec, bufferOf, loops, inputsOf. cbn [nextNode randomCalls analyser].
  destruct Hkind as [-> | ->];
    remember (playTone host ar f _) as p eqn:Hp;
    unfold playTone, ensureAudioContextActive, createWhiteNoise, createPinkNoise in Hp;
    sym_with Hp; subst p; cbn [fst snd]; close_contradiction;
    try (cbn in Han; discriminate Han).
  all: cbn [source nextNode nodes ctxState analyser inputs randomCalls];
       rewrite !lookup_alter_eq, lookup_insert_eq;
       cbn [fmap option_fmap option_map producer started stopped].
  all: match goal with a0 : AnalyserNode |- _ =>
         destruct a0; destruct a; cbn in Han; injection Han as -> end.
  all: by split_and!.
Qed.

(** X4 on the page with white noise selected. *)
Lemma playTone_starts_noise_witness :
  resumeFails quietHost whiteSelected = false ∧
  isNaN (Finite (Qc_of_Z 440)) || le_zero (Finite (Qc_of_Z 440)) = false ∧
  waveformInput whiteSelected = Some "sine" ∧ noiseTypeInput whiteSelected = Some "white" ∧
  ("white" = "white" ∨ "white" = "pink") ∧
  analyser whiteSelected = Some {| fftSize := 2048; toDestination := true; inputs := ∅ |} ∧
  throws quietHost (CreateBuffer (2 * sampleRate quietHost)) = false ∧
  throws quietHost CreateBufferSource = false ∧
  throws quietHost (Connect (nextNode whiteSelected)) = false ∧
  throws quietHost (Start (nextNode whiteSelected)) = false ∧
  let n := nextNode whiteSelected in
  let w' := exec (playTone quietHost exact (Finite (Qc_of_Z 440))) whiteSelected in
  let rs := draws quietHost (randomCalls whiteSelected) (2 * sampleRate quietHost) in
  result (playTone quietHost exact (Finite (Qc_of_Z 440))) whiteSelected = Ok tt ∧
  source w' = Some n ∧ nextNode w' = S n ∧
  bufferOf w' n =
    Some (if String.eqb "white" "white"
          then map (λ r, float32 exact (whiteSample exact r)) rs
          else pinkSamples exact pinkZero rs) ∧
  loops w' n = true ∧
  started <$> nodes w' !! n = Some true ∧
  inputsOf w' = {[ n ]} ∪ inputsOf whiteSelected ∧
  randomCalls w' = randomCalls whiteSelected + 2 * sampleRate quietHost.
Proof.
  split_and!; [reflexivity | reflexivity | reflexivity | reflexivity | by left
              | reflexivity | reflexivity | reflexivity | reflexivity | reflexivity |].
  exact (playTone_starts_noise quietHost exact (Finite (Qc_of_Z 440)) whiteSelected
           "sine" "white" _ eq_refl eq_refl eq_refl eq_refl (or_introl eq_refl) eq_refl
           eq_refl eq_refl eq_refl eq_refl).
Defined.

Lemma stoppedFirst_quiet_app (old : NodeId) (l1 l2 : list Event) :
  forallb quiet l1 = true → stoppedFirst old l2 = true →
  stoppedFirst old (l1 ++ l2) = true.
Proof.
  intros H1 H2. induction l1 as [|e l1 IH]; [done|].
  cbn in H1. apply andb_prop in H1 as [He H1]. specialize (IH H1).
  destruct e as [|c|msg| |]; cbn [app stoppedFirst]; try done.
  - destruct c; cbn in He |- *; try done. rewrite IH. apply orb_true_r.
  - rewrite IH. apply orb_true_r.
Qed.

Lemma inert_quiet (evs : list Event) :
  forallb inert evs = true → forallb quiet evs = true.
Proof. apply forallb_impl. by intros [|[]| | |]. Qed.

Ltac stopped_tac :=
  emitted_eval;
  repeat first [ rewrite rev_app_distr | progress cbn [rev] ];
  repeat first [ rewrite <- app_assoc | progress cbn [app] ];
  repeat first
    [ reflexivity
    | rewrite bool_decide_eq_true_2 by reflexivity
    | apply stoppedFirst_quiet_app;
        [ rewrite forallb_rev;
          first [ apply inert_quiet; assumption
                | eapply forallb_impl; [apply visEvent_quiet | assumption] ] | ]
    | progress cbn [stoppedFirst createsOrConnects negb andb orb] ].

(** X5. When a producer is playing, [playTone] stops it before it creates or
    connects anything: on every path the call of [stop()] on the old
    producer, or the log of its failure, comes before any creation or
    connection.  Unless [resume()] was rejected, [source] afterwards is
    [null] or the node this call created, never the old producer, and the
    old producer is stopped if [stop()] did not throw.  If [resume()] was
    rejected the old producer is still in [source] and no node has changed. *)
Theorem playTone_stops_previous_first host ar f w old :
  source w = Some old →
  let w' := exec (playTone host ar f) w in
  stoppedFirst old (emitted w w') = true ∧
  if resumeFails host w then source w' = Some old ∧ nodes w' = nodes w
  else (source w' = None ∨ source w' = Some (nextNode w)) ∧
       (throws host (Stop old) = false → old ≠ nextNode w →
        stopped <$> nodes w' !! old = (λ _, true) <$> nodes w !! old).
Proof.
  intros Hs. destruct_world w. cbn in Hs. subst so.
  unfold exec, resumeFails. cbn [ctxState nextNode nodes].
  remember (playTone host ar f _) as p eqn:Hp.
  unfold playTone, ensureAudioContextActive, stopTone, createWhiteNoise, createPinkNoise in Hp.
  sym Hp; subst p; cbn [fst snd].
  all: split; [stopped_tac|].
  all: cbn [andb source nodes]; try (by split).
  all: split; [first [by left | by right]|].
  all: intros Ht Hne; try congruence.
  all: rewrite ?lookup_alter_ne, ?lookup_insert_ne by done;
       rewrite lookup_alter_eq; by destruct (ns !! old).
Qed.

Lemma source_tonePlaying : source tonePlaying = Some 0.
Proof. by vm_compute. Defined.

(** X5 while a 440 Hz tone is playing and 880 Hz is asked for. *)
Lemma playTone_stops_previous_first_witness :
  source tonePlaying = Some 0 ∧
  let w' := exec (playTone quietHost exact (Finite (Qc_of_Z 880))) tonePlaying in
  stoppedFirst 0 (emitted tonePlaying w') = true ∧
  if resumeFails quietHost tonePlaying
  then source w' = Some 0 ∧ nodes w' = nodes tonePlaying
  else (source w' = None ∨ source w' = Some (nextNode tonePlaying)) ∧
       (throws quietHost (Stop 0) = false → 0 ≠ nextNode tonePlaying →
        stopped <$> nodes w' !! 0 = (λ _, true) <$> nodes tonePlaying !! 0).
Proof.
  split; [exact source_tonePlaying|].
  exact (playTone_stops_previous_first quietHost exact (Finite (Qc_of_Z 880)) tonePlaying 0
           source_tonePlaying).
Defined.

(** X6. A noise type other than "none", "white" and "pink" falls through
    the chain of tests: [playTone] then is the two checks of [utils.js],
    [stopTone] and [visualize], and nothing else.  It returns normally, its
    [catch] is not entered, no producer is created and [source] is left
    [null]. *)
Theorem playTone_unknown_noise_type host ar f w waveform noiseType :
  resumeFails host w = false →
  isNaN f || le_zero f = false →
  waveformInput w = Some waveform → noiseTypeInput w = Some noiseType →
  String.eqb noiseType "none" = false →
  String.eqb noiseType "white" = false →
  String.eqb noiseType "pink" = false →
  let w' := exec (playTone host ar f) w in
  playTone host ar f w =
    (ensureAudioContextActive host ;; ensureAnalyserOutput host ;;
     stopTone host ;; visualize host) w ∧
  result (playTone host ar f) w = Ok tt ∧
  source w' = None ∧ nextNode w' = nextNode w ∧ inputsOf w' = inputsOf w.
Proof.
  intros Hres [Hf1 Hf2]%orb_false_elim Hwf Hnt Hn1 Hn2 Hn3.
  destruct_world w. cbn in Hwf, Hnt. subst wi ni.
  unfold result, exec, inputsOf. cbn [nextNode analyser nodes].
  remember (playTone host ar f _) as p eqn:Hp.
  remember ((ensureAudioContextActive host ;; ensureAnalyserOutput host ;;
             stopTone host ;; visualize host) _) as q eqn:Hq.
  unfold playTone, ensureAudioContextActive in Hp.
  unfold ensureAudioContextActive in Hq.
  sym_keep Hp; sym_keep Hq; subst p q; cbn [fst snd]; close_contradiction.
  all: match goal with E : visualize _ _ = _ |- _ => rewrite E end.
  all: cbn [source nextNode analyser]; split_and!; try reflexivity.
  all: repeat match goal with a : option AnalyserNode |- _ => destruct a end;
       try discriminate; try reflexivity; cbn in Han; by injection Han.
Qed.

(** X6 on a page whose noise type is "brown". *)
Lemma playTone_unknown_noise_type_witness :
  resumeFails quietHost brownSelected = false ∧
  isNaN (Finite (Qc_of_Z 440)) || le_zero (Finite (Qc_of_Z 440)) = false ∧
  waveformInput brownSelected = Some "sine" ∧ noiseTypeInput brownSelected = Some "brown" ∧
  String.eqb "brown" "none" = false ∧
  String.eqb "brown" "white" = false ∧
  String.eqb "brown" "pink" = false ∧
  let w' := exec (playTone quietHost exact (Finite (Qc_of_Z 440))) brownSelected in
  playTone quietHost exact (Finite (Qc_of_Z 440)) brownSelected =
    (ensureAudioContextActive quietHost ;; ensureAnalyserOutput quietHost ;;
     stopTone quietHost ;; visualize quietHost) brownSelected ∧
  result (playTone quietHost exact (Finite (Qc_of_Z 440))) brownSelected = Ok tt ∧
  source w' = None ∧ nextNode w' = nextNode brownSelected ∧
  inputsOf w' = inputsOf brownSelected.
Proof.
  split_and!; [reflexivity..|].
  exact (playTone_unknown_noise_type quietHost exact (Finite (Qc_of_Z 440)) brownSelected
           "sine" "brown" eq_refl eq_refl eq_refl eq_refl eq_refl eq_refl eq_refl).
Defined.

(** X7. In the noise branches [playTone] stores the new producer in
    [source] before it connects and starts it.  When connecting or starting
    throws, the error is alerted as usual, but [source] keeps the producer,
    which was never started; no frame is requested.  (The oscillator branch,
    which assigns [source] last, leaves it [null] in the same situation.) *)
Theorem playTone_noise_failure_keeps_source host ar f w waveform noiseType a :
  resumeFails host w = false →
  isNaN f || le_zero f = false →
  waveformInput w = Some waveform → noiseTypeInput w = Some noiseType →
  noiseType = "white" ∨ noiseType = "pink" →
  analyser w = Some a →
  throws host (CreateBuffer (2 * sampleRate host)) = false →
  throws host CreateBufferSource = false →
  throws host (Connect (nextNode w)) || throws host (Start (nextNode w)) = true →
  let n := nextNode w in
  let w' := exec (playTone host ar f) w in
  result (playTone host ar f) w = Ok tt ∧
  source w' = Some n ∧
  started <$> nodes w' !! n = Some false ∧
  inputsOf w' = (if throws host (Connect n) then inputsOf w else {[ n ]} ∪ inputsOf w) ∧
  frames w' = frames w ∧
  hd_error (trace w') =
    Some (Alert ("Error playing tone: " ++
                 message (HostException (if throws host (Connect n) then Connect n else Start n)))).
Proof.
  intros Hres [Hf1 Hf2]%orb_false_elim Hwf Hnt Hkind Han Ht1 Ht2 Hfail.
  destruct_world w. cbn in Hwf, Hnt, Han, Hfail. subst wi ni an.
  unfold result, exec, inputsOf. cbn [nextNode analyser frames].
  destruct Hkind as [-> | ->];
    remember (playTone host ar f _) as p eqn:Hp;
    unfold playTone, ensureAudioContextActive, createWhiteNoise, createPinkNoise in Hp;
    sym_with Hp; subst p; cbn [fst snd]; close_contradiction; against Hfail;
    try (cbn in Han; discriminate Han).
  all: cbn [source nodes analyser inputs frames trace];
       rewrite ?lookup_alter_eq, ?lookup_insert_eq;
       cbn [fmap option_fmap option_map producer started stopped]; use_tests.
  all: match goal with a0 : AnalyserNode |- _ =>
         destruct a0; destruct a; cbn in Han; injection Han as -> end.
  all: by split_and!.
Qed.

(** X7 on a browser that refuses the connection. *)
Lemma playTone_noise_failure_keeps_source_witness :
  resumeFails connectFailsHost whiteSelected = false ∧
  isNaN (Finite (Qc_of_Z 440)) || le_zero (Finite (Qc_of_Z 440)) = false ∧
  waveformInput whiteSelected = Some "sine" ∧ noiseTypeInput whiteSelected = Some "white" ∧
  ("white" = "white" ∨ "white" = "pink") ∧
  analyser whiteSelected = Some {| fftSize := 2048; toDestination := true; inputs := ∅ |} ∧
  throws connectFailsHost (CreateBuffer (2 * sampleRate connectFailsHost)) = false ∧
  throws connectFailsHost CreateBufferSource = false ∧
  throws connectFailsHost (Connect (nextNode whiteSelected))
    || throws connectFailsHost (Start (nextNode whiteSelected)) = true ∧
  let n := nextNode whiteSelected in
  let w' := exec (playTone connectFailsHost exact (Finite (Qc_of_Z 440))) whiteSelected in
  result (playTone connectFailsHost exact (Finite (Qc_of_Z 440))) whiteSelected = Ok tt ∧
  source w' = Some n ∧
  started <$> nodes w' !! n = Some false ∧
  inputsOf w' =
    (if throws connectFailsHost (Connect n) then inputsOf whiteSelected
     else {[ n ]} ∪ inputsOf whiteSelected) ∧
  frames w' = frames whiteSelected ∧
  hd_error (trace w') =
    Some (Alert ("Error playing tone: " ++
                 message (HostException
                            (if throws connectFailsHost (Connect n) then Connect n
                             else Start n)))).
Proof.
  split_and!; [reflexivity | reflexivity | reflexivity | reflexivity | by left
              | reflexivity | reflexivity | reflexivity | reflexivity |].
  exact (playTone_noise_failure_keeps_source connectFailsHost exact (Finite (Qc_of_Z 440))
           whiteSelected "sine" "white" _ eq_refl eq_refl eq_refl eq_refl
           (or_introl eq_refl) eq_refl eq_refl eq_refl eq_refl).
Defined.

(** X8. [createWhiteNoise] and [createPinkNoise] make the buffer, fill it,
    and only then make the node.  If the buffer cannot be made nothing has
    happened; if the node cannot be made the draws of [Math.random] are
    spent, but no node exists; either way the exception goes to the caller.
    Otherwise the new node is returned. *)
Theorem createNoise_failure host ar w :
  let len := 2 * sampleRate host in
  let spent := set_trace (Did (CreateBuffer len) :: trace w)
                 (set_randomCalls (randomCalls w + len) w) in
  if throws host (CreateBuffer len)
  then createWhiteNoise host ar w = (Throw (HostException (CreateBuffer len)), w) ∧
       createPinkNoise host ar w = (Throw (HostException (CreateBuffer len)), w)
  else if throws host CreateBufferSource
  then createWhiteNoise host ar w = (Throw (HostException CreateBufferSource), spent) ∧
       createPinkNoise host ar w = (Throw (HostException CreateBufferSource), spent)
  else result (createWhiteNoise host ar) w = Ok (nextNode w) ∧
       result (createPinkNoise host ar) w = Ok (nextNode w).
Proof.
  intros len spent. subst len spent. destruct_world w. unfold result.
  cbn [randomCalls trace nextNode].
  destruct (throws host (CreateBuffer (2 * sampleRate host))) eqn:Hb;
    [|destruct (throws host CreateBufferSource) eqn:Hs]; split.
  all: match goal with
       | |- fst ?t = _ => remember t as p eqn:Hp
       | |- ?t = _ => remember t as p eqn:Hp
       end.
  all: unfold createWhiteNoise, createPinkNoise in Hp; sym_with Hp; by subst p.
Qed.

(** X9. The tone generator only ever adds to the inputs of the analyser:
    [playTone] keeps every input and adds at most the node it creates;
    [stopTone] and the listeners of the two buttons remove nothing either. *)
Theorem tone_never_disconnects host ar f w :
  inputsOf w ⊆ inputsOf (exec (playTone host ar f) w) ∧
  inputsOf (exec (playTone host ar f) w) ⊆ inputsOf w ∪ {[ nextNode w ]} ∧
  inputsOf w ⊆ inputsOf (exec (onPlayToneClick host ar f) w) ∧
  inputsOf (exec (stopTone host) w) = inputsOf w ∧
  inputsOf (exec (onStopToneClick host) w) = inputsOf w.
Proof.
  assert (Hplay : inputsOf w ⊆ inputsOf (exec (playTone host ar f) w) ∧
                  inputsOf (exec (playTone host ar f) w) ⊆ inputsOf w ∪ {[ nextNode w ]}).
  { destruct_world w. unfold exec, inputsOf. cbn [analyser nextNode].
    remember (playTone host ar f _) as p eqn:Hp.
    unfold playTone, ensureAudioContextActive, createWhiteNoise, createPinkNoise in Hp.
    sym Hp; subst p; cbn [fst snd analyser inputs].
    all: repeat match goal with a : option AnalyserNode |- _ => destruct a end;
         try discriminate; try (cbn in Han; injection Han as Han);
         repeat match goal with a : AnalyserNode |- _ => destruct a end;
         try (cbn in Han; subst);
         (split;
          [ first [ reflexivity | apply union_subseteq_r | apply empty_subseteq ]
          | first [ apply union_subseteq_l | by rewrite (comm_L (∪)) | apply empty_subseteq ] ]). }
  split_and!; [apply Hplay | apply Hplay | | |].
  - unfold exec, onPlayToneClick, tryCatch, bind, consoleError, alert, emit, modify.
    destruct (isNaN f || le_zero f).
    + by destruct_world w.
    + destruct Hplay as [Hplay _]. unfold exec in Hplay.
      by destruct (playTone host ar f w) as [[|] ?].
  - destruct_world w. unfold exec, inputsOf.
    remember (stopTone host _) as p eqn:Hp. unfold stopTone in Hp.
    sym Hp; by subst p.
  - destruct_world w. unfold exec, inputsOf.
    remember (onStopToneClick host _) as p eqn:Hp. unfold onStopToneClick in Hp.
    sym Hp; by subst p.
Qed.

(** ** visualizer.js *)

(** X10. A change of the visualizer select takes effect at once.  The value
    is stored, the frame that was queued is cancelled, and afterwards the
    queue holds at most the one frame the new mode requested: a frame of the
    mode's own loop under a fresh id when the mode is one of the three loops
    and its first frame rendered, and nothing when that frame failed, when
    there is no analyser, or when the value is any other string, in which
    case the canvas is cleared. *)
Theorem onVisualizerChange_switches host value w :
  oneLoop w →
  let w' := exec (onVisualizerChange host value) w in
  result (onVisualizerChange host value) w = Ok tt ∧
  visualizerType w' = value ∧ oneLoop w' ∧
  match analyser w, drawKindOf value with
  | Some _, Some k =>
      if frameFails host k then frames w' = []
      else frames w' = [(nextFrame w, k)] ∧
           currentVisualizerAnimation w' = Some (nextFrame w)
  | None, Some _ => frames w' = []
  | _, None =>
      frames w' = [] ∧
      (throws host ClearRect = false → hd_error (trace w') = Some (Did ClearRect))
  end.
Proof.
  destruct_world w. intros [Hn [Hf | (id & k & Hf & Hc & Hid)]];
    cbn in Hn, Hf; [|cbn in Hc, Hid; destruct id as [|id]; [lia|]]; subst;
    unfold result, exec, drawKindOf, frameFails;
    cbn [frames nextFrame visualizerType analyser];
    remember (onVisualizerChange host value _) as p eqn:Hp;
    unfold onVisualizerChange, visualize, drawBarGraph, drawKaleidoscope,
      drawKaleidoscopeB, draw in Hp;
    sym Hp; subst p;
    cbn [fst snd frames nextFrame visualizerType currentVisualizerAnimation trace];
    frames_simpl.
  all: split_and!; [reflexivity | reflexivity | oneLoop_tac | ].
  all: use_tests; cbn [orb]; try done.
  all: by destruct an.
Qed.

(** X10 while the bar graph is running and "kaleidoscope" is chosen. *)
Lemma onVisualizerChange_switches_witness :
  oneLoop tonePlaying ∧
  let w' := exec (onVisualizerChange quietHost "kaleidoscope") tonePlaying in
  result (onVisualizerChange quietHost "kaleidoscope") tonePlaying = Ok tt ∧
  visualizerType w' = "kaleidoscope" ∧ oneLoop w' ∧
  match analyser tonePlaying, drawKindOf "kaleidoscope" with
  | Some _, Some k =>
      if frameFails quietHost k then frames w' = []
      else frames w' = [(nextFrame tonePlaying, k)] ∧
           currentVisualizerAnimation w' = Some (nextFrame tonePlaying)
  | None, Some _ => frames w' = []
  | _, None =>
      frames w' = [] ∧
      (throws quietHost ClearRect = false → hd_error (trace w') = Some (Did ClearRect))
  end.
Proof.
  split; [exact oneLoop_tonePlaying|].
  exact (onVisualizerChange_switches quietHost "kaleidoscope" tonePlaying oneLoop_tonePlaying).
Defined.

Lemma fireFrame_renders host w id k :
  frames w = [(id, k)] → frameFails host k = false →
  fireFrame host w =
    (Ok tt,
     set_trace (rev (frameEvents k) ++ trace w)
       (set_currentVisualizerAnimation (Some (nextFrame w))
          (set_nextFrame (S (nextFrame w)) (set_frames [(nextFrame w, k)] w)))).
Proof.
  destruct_world w. cbn [frames nextFrame trace]. intros -> Hf.
  unfold frameFails in Hf. apply orb_false_elim in Hf as [Hf Hp'].
  apply orb_false_elim in Hf as [Hr Hg].
  remember (fireFrame host _) as p eqn:Hp. unfold fireFrame, draw in Hp.
  sym_with Hp. by subst p.
Qed.

Lemma rev_join_replicate {A} (l : list A) (n : nat) :
  rev (mjoin (replicate n (rev l))) = mjoin (replicate n l).
Proof.
  induction n as [|n IH]; [done|].
  rewrite replicate_S_end at 1. rewrite join_app, rev_app_distr. cbn [mjoin list_join].
  by rewrite app_nil_r, rev_involutive, IH.
Qed.

(** X11. While rendering succeeds the loop keeps itself going: each frame
    the browser fires requests its successor, reads the spectrum and paints,
    once each and in this order, so that after any number of frames exactly
    one frame of the same loop is queued, under the next id, and
    [currentVisualizerAnimation] holds that id.  The audio side of the page
    is not touched. *)
Theorem frame_loop_steady host k n : ∀ w id,
  frames w = [(id, k)] → frameFails host k = false →
  let w' := fireFrames host (S n) w in
  frames w' = [(nextFrame w + n, k)] ∧
  currentVisualizerAnimation w' = Some (nextFrame w + n) ∧
  nextFrame w' = nextFrame w + S n ∧
  emitted w w' = mjoin (replicate (S n) (frameEvents k)) ∧
  sameAudio w w'.
Proof.
  intros w id Hfr Hf w'.
  assert (∀ n w id, frames w = [(id, k)] →
    let w' := fireFrames host (S n) w in
    frames w' = [(nextFrame w + n, k)] ∧
    currentVisualizerAnimation w' = Some (nextFrame w + n) ∧
    nextFrame w' = nextFrame w + S n ∧
    trace w' = mjoin (replicate (S n) (rev (frameEvents k))) ++ trace w ∧
    sameAudio w w') as Hgen.
  { clear w id Hfr w'. intros m. induction m as [|m IH]; intros w id Hfr.
    - cbn [fireFrames]. unfold exec. rewrite (fireFrame_renders host w id k Hfr Hf).
      destruct_world w. cbn. rewrite !Nat.add_0_r, Nat.add_1_r. by split_and!.
    - intros w'. subst w'. cbn [fireFrames].
      set (w1 := exec (fireFrame host) w).
      assert (H1 : frames w1 = [(nextFrame w, k)] ∧ nextFrame w1 = S (nextFrame w) ∧
                   trace w1 = rev (frameEvents k) ++ trace w ∧ sameAudio w w1).
      { subst w1. unfold exec. rewrite (fireFrame_renders host w id k Hfr Hf).
        destruct_world w. cbn. by split_and!. }
      destruct H1 as (F1 & N1 & T1 & A1).
      destruct (IH w1 (nextFrame w) F1) as (F & C & N & T & A).
      change (fireFrames host m (exec (fireFrame host) w1)) with (fireFrames host (S m) w1).
      rewrite F, C, N, T, N1, T1.
      replace (S (nextFrame w) + m) with (nextFrame w + S m) by lia.
      replace (S (nextFrame w) + S m) with (nextFrame w + S (S m)) by lia.
      split_and!; try reflexivity.
      + rewrite (replicate_S_end (S m)). rewrite join_app. cbn [mjoin list_join app].
        by rewrite app_nil_r, <- app_assoc.
      + unfold sameAudio in *. intuition congruence. }
  destruct (Hgen n w id Hfr) as (F & C & N & T & A). fold w' in F, C, N, T, A.
  split_and!; try done.
  by rewrite (emitted_prefix _ _ _ T), rev_join_replicate.
Qed.

(** X11 for three frames of the bar graph while a tone is playing. *)
Lemma frame_loop_steady_witness :
  frames tonePlaying = [(1, BarGraph)] ∧ frameFails quietHost BarGraph = false ∧
  let w' := fireFrames quietHost 3 tonePlaying in
  frames w' = [(nextFrame tonePlaying + 2, BarGraph)] ∧
  currentVisualizerAnimation w' = Some (nextFrame tonePlaying + 2) ∧
  nextFrame w' = nextFrame tonePlaying + 3 ∧
  emitted tonePlaying w' = mjoin (replicate 3 (frameEvents BarGraph)) ∧
  sameAudio tonePlaying w'.
Proof.
  split_and!; [reflexivity | reflexivity |].
  exact (frame_loop_steady quietHost BarGraph 2 tonePlaying 1 eq_refl eq_refl).
Defined.

(** X12. The visualizer only reads the audio side of the page: whatever the
    browser does, [visualize], a frame and a change of the select leave the
    context, the graph, the producers and the media element as they were,
    and none of them throws. *)
Theorem visualizer_leaves_audio_alone host value w :
  (result (visualize host) w = Ok tt ∧ sameAudio w (exec (visualize host) w)) ∧
  (result (fireFrame host) w = Ok tt ∧ sameAudio w (exec (fireFrame host) w)) ∧
  (result (onVisualizerChange host value) w = Ok tt ∧
   sameAudio w (exec (onVisualizerChange host value) w)).
Proof.
  split_and!.
  - destruct (visualize_run host w) as (cur & fr' & nf' & evs & E & _).
    unfold result. by rewrite E.
  - destruct (visualize_run host w) as (cur & fr' & nf' & evs & E & _).
    unfold exec. rewrite E. by destruct_world w.
  - destruct_world w. unfold result.
    remember (fireFrame host _) as p eqn:Hp. unfold fireFrame, draw in Hp.
    sym Hp; by subst p.
  - destruct_world w. unfold exec.
    remember (fireFrame host _) as p eqn:Hp. unfold fireFrame, draw in Hp.
    sym Hp; by subst p.
  - destruct_world w. unfold result.
    remember (onVisualizerChange host value _) as p eqn:Hp. unfold onVisualizerChange in Hp.
    sym Hp; by subst p.
  - destruct_world w. unfold exec.
    remember (onVisualizerChange host value _) as p eqn:Hp. unfold onVisualizerChange in Hp.
    sym Hp; by subst p.
Qed.



Lemma visualize_starts host w a k :
  oneLoop w → analyser w = Some a →
  drawKindOf (visualizerType w) = Some k → frameFails host k = false →
  frames (exec (visualize host) w) = [(nextFrame w, k)] ∧
  currentVisualizerAnimation (exec (visualize host) w) = Some (nextFrame w).
Proof.
  destruct_world w. intros [Hn [Hf | (id & k0 & Hf & Hc & Hid)]] Ha Hk Hfail;
    cbn in Hn, Hf, Ha, Hk; [|cbn in Hc, Hid; destruct id as [|id]; [lia|]]; subst;
    unfold exec, drawKindOf, frameFails in *;
    cbn [frames nextFrame];
    remember (visualize host _) as p eqn:Hp;
    unfold visualize, drawBarGraph, drawKaleidoscope, drawKaleidoscopeB, draw in Hp;
    sym Hp; subst p; cbn [fst snd frames nextFrame currentVisualizerAnimation];
    frames_simpl.
  all: repeat match goal with E : String.eqb _ _ = _ |- _ => rewrite E in Hk end;
       try discriminate Hk; injection Hk as <-.
  all: try done.
  all: against Hfail.
Qed.

(** ** mp3Handler.js *)

(** X14. The first [loadeddata] on an element that is not wrapped binds it:
    [setupAudioNodes] wraps the element in a node, records it in
    [mp3Source] and the flag, and connects it to the analyser.  If the
    browser then refuses [play()], the refusal is shown in an alert and goes
    no further: the node stays bound and connected, the element stays as it
    was, and the visualization is started all the same. *)
Theorem setupAudioNodes_binds_and_plays host w a :
  resumeFails host w = false →
  String.eqb (src (audioPlayer w)) "" = false →
  mediaElementSourceCreated w = false →
  analyser w = Some a →
  throws host CreateMediaElementSource = false →
  throws host (Connect (nextNode w)) = false →
  let n := nextNode w in
  let w' := exec (setupAudioNodes host) w in
  result (setupAudioNodes host) w = Ok tt ∧
  mp3Source w' = Some n ∧ mediaElementSourceCreated w' = true ∧
  nodes w' !! n =
    Some {| producer := MediaElementAudioSourceNode; started := false; stopped := false |} ∧
  inputsOf w' = {[ n ]} ∪ inputsOf w ∧
  src (audioPlayer w') = src (audioPlayer w) ∧
  (if throws host Play
   then paused (audioPlayer w') = paused (audioPlayer w) ∧
        Alert ("Failed to play MP3: " ++ message (HostException Play)) ∈ emitted w w'
   else paused (audioPlayer w') = false) ∧
  (∀ k, oneLoop w → drawKindOf (visualizerType w) = Some k → frameFails host k = false →
     frames w' = [(nextFrame w, k)]).
Proof.
  intros Hres Hs Hc Han Ht1 Ht2.
  destruct_world w. cbn in Hs, Hc, Han, Ht2. subst mc an.
  unfold result, exec, inputsOf. cbn [nextNode analyser audioPlayer src paused visualizerType nextFrame].
  remember (setupAudioNodes host _) as p eqn:Hp.
  unfold setupAudioNodes, ensureAudioContextActive in Hp.
  sym_keep Hp; subst p; cbn [fst snd]; close_contradiction;
    try (cbn in Han; discriminate Han).
  all: cbn [mp3Source mediaElementSourceCreated nodes analyser inputs audioPlayer src paused frames];
       rewrite ?lookup_insert_eq.
  all: match goal with a0 : AnalyserNode |- _ =>
         destruct a0; destruct a; cbn in Han; injection Han as -> end.
  all: split_and!; try reflexivity.
  all: try (emitted_eval; apply list_elem_of_In; rewrite <- in_rev; apply in_or_app; right; cbn; tauto).
  all: intros k Hone Hk Hfail;
       match goal with
       | E : visualize ?h ?w3 = _ |- _ =>
           destruct (visualize_starts h w3 _ k Hone eq_refl Hk Hfail) as [F _];
           unfold exec in F; rewrite E in F; exact F
       end.
Qed.

(** X14 with a file loaded, on a browser that refuses [play()]. *)
Lemma setupAudioNodes_binds_and_plays_witness :
  resumeFails playBlockedHost fileLoaded = false ∧
  String.eqb (src (audioPlayer fileLoaded)) "" = false ∧
  mediaElementSourceCreated fileLoaded = false ∧
  analyser fileLoaded = Some {| fftSize := 2048; toDestination := true; inputs := ∅ |} ∧
  throws playBlockedHost CreateMediaElementSource = false ∧
  throws playBlockedHost (Connect (nextNode fileLoaded)) = false ∧
  let n := nextNode fileLoaded in
  let w' := exec (setupAudioNodes playBlockedHost) fileLoaded in
  result (setupAudioNodes playBlockedHost) fileLoaded = Ok tt ∧
  mp3Source w' = Some n ∧ mediaElementSourceCreated w' = true ∧
  nodes w' !! n =
    Some {| producer := MediaElementAudioSourceNode; started := false; stopped := false |} ∧
  inputsOf w' = {[ n ]} ∪ inputsOf fileLoaded ∧
  src (audioPlayer w') = src (audioPlayer fileLoaded) ∧
  (if throws playBlockedHost Play
   then paused (audioPlayer w') = paused (audioPlayer fileLoaded) ∧
        Alert ("Failed to play MP3: " ++ message (HostException Play))
          ∈ emitted fileLoaded w'
   else paused (audioPlayer w') = false) ∧
  (∀ k, oneLoop fileLoaded → drawKindOf (visualizerType fileLoaded) = Some k →
     frameFails playBlockedHost k = false →
     frames w' = [(nextFrame fileLoaded, k)]).
Proof.
  split_and!; [reflexivity..|].
  exact (setupAudioNodes_binds_and_plays playBlockedHost fileLoaded _
           eq_refl eq_refl eq_refl eq_refl eq_refl eq_refl).
Defined.

(** X15. [stopMp3] never throws and always leaves the frame queue empty, so
    that no frame fires after it, also when no file is playing; it leaves
    [source] and every node alone, so a tone that is playing plays on
    without its picture.  With a file bound it pauses the element and
    rewinds it to 0, keeping its URL, then drops the binding and disconnects
    the node from the analyser (logging it if the browser refuses); if
    [pause()] or the revocation of the URL throws, the binding is kept. *)
Theorem stopMp3_halts_media_and_frames host w :
  oneLoop w →
  let w' := exec (stopMp3 host) w in
  result (stopMp3 host) w = Ok tt ∧
  frames w' = [] ∧ (∀ host', fireFrame host' w' = (Ok tt, w')) ∧
  source w' = source w ∧ nodes w' = nodes w ∧
  match mp3Source w with
  | None => audioPlayer w' = audioPlayer w ∧ analyser w' = analyser w
  | Some n =>
      if throws host Pause
      then mp3Source w' = Some n ∧ audioPlayer w' = audioPlayer w ∧ analyser w' = analyser w
      else
        paused (audioPlayer w') = true ∧ currentTime (audioPlayer w') = 0%Qc ∧
        src (audioPlayer w') = src (audioPlayer w) ∧
        if revokeThrows host w
        then mp3Source w' = Some n ∧ analyser w' = analyser w
        else mp3Source w' = None ∧
             inputsOf w' =
               (if throws host (Disconnect n) then inputsOf w else inputsOf w ∖ {[ n ]})
  end.
Proof.
  destruct_world w. intros [Hn [Hf | (id & k & Hf & Hc & Hid)]];
    cbn in Hn, Hf; [|cbn in Hc, Hid; destruct id as [|id]; [lia|]]; subst;
    unfold result, exec;
    remember (stopMp3 host _) as p eqn:Hp;
    unfold stopMp3 in Hp;
    sym Hp; subst p; cbn [fst snd]; frames_simpl.
  all: split; [reflexivity|].
  all: split; [reflexivity|].
  all: split; [intros host'; by apply fireFrame_idle|].
  all: unfold inputsOf, revokeThrows;
       cbn [source nodes mp3Source audioPlayer src paused currentTime analyser inputs];
       use_tests; cbn [andb orb negb].
  all: split_and?; try reflexivity.
  all: rewrite empty_difference_L;
       match goal with |- context [throws ?h ?c] => by destruct (throws h c) end.
Qed.

Lemma oneLoop_mediaPlaying : oneLoop mediaPlaying.
Proof.
  split; [vm_compute; lia|].
  right. exists 1, BarGraph. vm_compute. split_and!; [reflexivity | reflexivity | lia | lia].
Defined.

(** X15 while a file is playing. *)
Lemma stopMp3_halts_media_and_frames_witness :
  oneLoop mediaPlaying ∧
  let w' := exec (stopMp3 quietHost) mediaPlaying in
  result (stopMp3 quietHost) mediaPlaying = Ok tt ∧
  frames w' = [] ∧ (∀ host', fireFrame host' w' = (Ok tt, w')) ∧
  source w' = source mediaPlaying ∧ nodes w' = nodes mediaPlaying ∧
  match mp3Source mediaPlaying with
  | None => audioPlayer w' = audioPlayer mediaPlaying ∧ analyser w' = analyser mediaPlaying
  | Some n =>
      if throws quietHost Pause
      then mp3Source w' = Some n ∧ audioPlayer w' = audioPlayer mediaPlaying ∧
           analyser w' = analyser mediaPlaying
      else
        paused (audioPlayer w') = true ∧ currentTime (audioPlayer w') = 0%Qc ∧
        src (audioPlayer w') = src (audioPlayer mediaPlaying) ∧
        if revokeThrows quietHost mediaPlaying
        then mp3Source w' = Some n ∧ analyser w' = analyser mediaPlaying
        else mp3Source w' = None ∧
             inputsOf w' =
               (if throws quietHost (Disconnect n) then inputsOf mediaPlaying
                else inputsOf mediaPlaying ∖ {[ n ]})
  end.
Proof.
  split; [exact oneLoop_mediaPlaying|].
  exact (stopMp3_halts_media_and_frames quietHost mediaPlaying oneLoop_mediaPlaying).
Defined.




(** X17. The tone generator and the media player do not stop each other.
    [playTone] and [stopTone] leave the media element, its binding and the
    flag alone; [setupAudioNodes], [stopMp3] and [clearMp3] leave [source]
    alone and change no node that existed. *)
Theorem tone_and_media_independent host ar f w :
  (let w' := exec (playTone host ar f) w in
   mp3Source w' = mp3Source w ∧ audioPlayer w' = audioPlayer w ∧
   mediaElementSourceCreated w' = mediaElementSourceCreated w) ∧
  (let w' := exec (stopTone host) w in
   mp3Source w' = mp3Source w ∧ audioPlayer w' = audioPlayer w ∧
   mediaElementSourceCreated w' = mediaElementSourceCreated w) ∧
  (let w' := exec (setupAudioNodes host) w in
   source w' = source w ∧ ∀ n, n ≠ nextNode w → nodes w' !! n = nodes w !! n) ∧
  (let w' := exec (stopMp3 host) w in source w' = source w ∧ nodes w' = nodes w) ∧
  (let w' := exec (clearMp3 host) w in source w' = source w ∧ nodes w' = nodes w).
Proof.
  split_and!; intros w'; subst w'; destruct_world w; unfold exec.
  - remember (playTone host ar f _) as p eqn:Hp.
    unfold playTone, ensureAudioContextActive, createWhiteNoise, createPinkNoise in Hp.
    sym Hp; by subst p.
  - remember (stopTone host _) as p eqn:Hp. unfold stopTone in Hp.
    sym Hp; by subst p.
  - remember (setupAudioNodes host _) as p eqn:Hp.
    unfold setupAudioNodes, ensureAudioContextActive in Hp.
    sym Hp; subst p; cbn [snd source nodes nextNode]; (split; [reflexivity|]);
      intros n' Hn; by rewrite ?lookup_insert_ne.
  - remember (stopMp3 host _) as p eqn:Hp. unfold stopMp3 in Hp.
    sym Hp; by subst p.
  - remember (clearMp3 host _) as p eqn:Hp. unfold clearMp3 in Hp.
    sym Hp; by subst p.
Qed.

(** ** script.js *)

(** X18. The play button checks the frequency before it calls [playTone].
    A value that is NaN or not above zero is logged and alerted and nothing
    else happens: a tone that is playing keeps playing.  Any other value
    goes to [playTone].  The listener returns normally in both cases. *)
Theorem onPlayToneClick_guards_playTone host ar f w :
  result (onPlayToneClick host ar f) w = Ok tt ∧
  if isNaN f || le_zero f
  then onPlayToneClick host ar f w =
         (Ok tt,
          set_trace (Alert "Please enter a valid frequency value greater than 0."
                     :: ConsoleError "Invalid frequency value:" :: trace w) w)
  else onPlayToneClick host ar f w = playTone host ar f w.
Proof.
  pose proof (playTone_outcome host ar f w) as (Hr & _). unfold result in Hr.
  unfold onPlayToneClick, result, tryCatch.
  destruct (isNaN f || le_zero f).
  - by destruct_world w.
  - by destruct (playTone host ar f w) as [[[]|e] w'].
Qed.

(** X19. The stop button of the tone generator stops the tone and nothing
    else: the frame loop keeps running, the media element and its binding
    are untouched, and no node other than the one in [source] changes. *)
Theorem onStopToneClick_only_stops_tone host w :
  let w' := exec (onStopToneClick host) w in
  result (onStopToneClick host) w = Ok tt ∧
  source w' = None ∧
  frames w' = frames w ∧ nextFrame w' = nextFrame w ∧
  currentVisualizerAnimation w' = currentVisualizerAnimation w ∧
  mp3Source w' = mp3Source w ∧ audioPlayer w' = audioPlayer w ∧
  analyser w' = analyser w ∧ ctxState w' = ctxState w ∧
  ∀ n, source w ≠ Some n → nodes w' !! n = nodes w !! n.
Proof.
  destruct_world w. unfold result, exec.
  remember (onStopToneClick host _) as p eqn:Hp.
  unfold onStopToneClick, stopTone in Hp.
  sym Hp; subst p; cbn [fst snd].
  all: split_and!; try reflexivity.
  all: intros n' Hn; cbn [nodes source] in *; subst;
       rewrite ?lookup_alter_ne by congruence; reflexivity.
Qed.

Ltac append_simpl :=
  repeat first
    [ progress change (String ?c ?x +:+ ?y)%string with (String c (x +:+ y)) in *
    | progress change (EmptyString +:+ ?y)%string with y in * ].

Lemma prefix_spec (t s : string) :
  String.prefix t s = true ↔ ∃ q, s = (t +:+ q)%string.
Proof.
  revert s. induction t as [|a t IH]; intros s.
  - split; [intros _; by exists s | by destruct s].
  - destruct s as [|b s]; simpl.
    + split; [done | intros [q Hq]; append_simpl; discriminate].
    + destruct (Ascii.ascii_dec a b) as [->|Hne].
      * rewrite IH. split; intros [q Hq]; exists q; append_simpl; congruence.
      * split; [done | intros [q Hq]; append_simpl; congruence].
Qed.

Lemma includes_unfold (t s : string) :
  includes t s =
    String.prefix t s ||
    match s with EmptyString => false | String _ s' => includes t s' end.
Proof. by destruct s. Qed.

Lemma includes_spec (t s : string) :
  includes t s = true ↔ ∃ p q, s = (p +:+ t +:+ q)%string.
Proof.
  split.
  - induction s as [|c s IH]; rewrite includes_unfold; intros [H|H]%orb_prop.
    + apply prefix_spec in H as [q ->]. by exists EmptyString, q.
    + done.
    + apply prefix_spec in H as [q ->]. by exists EmptyString, q.
    + destruct (IH H) as (p & q & ->). by exists (String c p), q.
  - intros (p & q & ->). induction p as [|c p IH]; rewrite includes_unfold.
    + apply orb_true_intro. left. apply prefix_spec. by exists q.
    + apply orb_true_intro. right. exact IH.
Qed.

Lemma substring_append_r (p t : string) :
  String.substring (String.length p) (String.length t) (p +:+ t) = t.
Proof.
  induction p as [|c p IH]; append_simpl; simpl; [|exact IH].
  induction t as [|c t IH]; simpl; [done | by rewrite IH].
Qed.

Lemma substring_split (n : nat) : ∀ s : string,
  n ≤ String.length s →
  s = (String.substring 0 n s +:+ String.substring n (String.length s - n) s)%string.
Proof.
  induction n as [|n IH]; intros s Hn.
  - assert (H : ∀ u, String.substring 0 (String.length u) u = u).
    { induction u as [|c u IHu]; simpl; [done | by rewrite IHu]. }
    rewrite Nat.sub_0_r, H. by destruct s.
  - destruct s as [|c s]; simpl in Hn |- *; [lia|].
    append_simpl. f_equal. apply IH. lia.
Qed.

Lemma length_append (p t : string) :
  String.length (p +:+ t) = String.length p + String.length t.
Proof. induction p as [|c p IH]; append_simpl; simpl; [done | by rewrite IH]. Qed.

Lemma endsWith_spec (t s : string) :
  endsWith t s = true ↔ ∃ p, s = (p +:+ t)%string.
Proof.
  unfold endsWith. split.
  - intros [Hle Heq]%andb_prop.
    apply Nat.leb_le in Hle. apply String.eqb_eq in Heq.
    exists (String.substring 0 (String.length s - String.length t) s).
    pose proof (substring_split (String.length s - String.length t) s ltac:(lia)) as Hs.
    replace (String.length s - (String.length s - String.length t))
      with (String.length t) in Hs by lia.
    by rewrite Heq in Hs.
  - intros [p ->]. rewrite length_append.
    apply andb_true_intro. split; [apply Nat.leb_le; lia|].
    replace (String.length p + String.length t - String.length t) with (String.length p) by lia.
    rewrite substring_append_r. apply String.eqb_refl.
Qed.

(** X20. The uploader looks at the selection before it touches anything.
    With no file chosen it warns; with a first file whose type does not
    contain "audio/mpeg" and whose name does not end in ".mp3" it logs and
    alerts; either way it returns normally and the page is as it was.  A
    file that passes either test is loaded as [onMp3Selected] loads its
    URL. *)
Theorem onMp3UploaderChange_checks_first host url w :
  (∀ files, files = None ∨ files = Some [] →
     onMp3UploaderChange host files url w =
       (Ok tt, set_trace (ConsoleWarn "No files selected" :: trace w) w)) ∧
  (∀ file rest,
     ¬ (∃ p q, fileType file = (p +:+ "audio/mpeg" +:+ q)%string) →
     ¬ (∃ p, fileName file = (p +:+ ".mp3")%string) →
     onMp3UploaderChange host (Some (file :: rest)) url w =
       (Ok tt,
        set_trace (Alert "Please select an MP3 audio file."
                   :: ConsoleError "Selected file is not an MP3:" :: trace w) w)) ∧
  (∀ file rest,
     (∃ p q, fileType file = (p +:+ "audio/mpeg" +:+ q)%string) ∨
     (∃ p, fileName file = (p +:+ ".mp3")%string) →
     onMp3UploaderChange host (Some (file :: rest)) url w = onMp3Selected host url w).
Proof.
  split_and!.
  - intros files [-> | ->]; by destruct_world w.
  - intros file rest Ht Hn. unfold onMp3UploaderChange.
    rewrite <- includes_spec in Ht. rewrite <- endsWith_spec in Hn.
    apply not_true_is_false in Ht, Hn. rewrite Ht, Hn. by destruct_world w.
  - intros file rest H. unfold onMp3UploaderChange, onMp3Selected.
    rewrite <- includes_spec, <- endsWith_spec in H.
    destruct H as [-> | ->]; [done|].
    by destruct (includes "audio/mpeg" (fileType file)).
Qed.

(** X20 for an empty selection, a text file and an MP3 file. *)
Lemma onMp3UploaderChange_checks_first_witness :
  ((None : option (list File)) = None ∨ (None : option (list File)) = Some []) ∧
  ¬ (∃ p q, fileType textFile = (p +:+ "audio/mpeg" +:+ q)%string) ∧
  ¬ (∃ p, fileName textFile = (p +:+ ".mp3")%string) ∧
  ((∃ p q, fileType mp3File = (p +:+ "audio/mpeg" +:+ q)%string) ∨
   (∃ p, fileName mp3File = (p +:+ ".mp3")%string)) ∧
  onMp3UploaderChange quietHost None "blob:track-2" initialWorld =
    (Ok tt, set_trace (ConsoleWarn "No files selected" :: trace initialWorld) initialWorld) ∧
  onMp3UploaderChange quietHost (Some [textFile]) "blob:track-2" initialWorld =
    (Ok tt,
     set_trace (Alert "Please select an MP3 audio file."
                :: ConsoleError "Selected file is not an MP3:" :: trace initialWorld)
       initialWorld) ∧
  onMp3UploaderChange quietHost (Some [mp3File]) "blob:track-2" initialWorld
    = onMp3Selected quietHost "blob:track-2" initialWorld.
Proof.
  destruct (onMp3UploaderChange_checks_first quietHost "blob:track-2" initialWorld)
    as (Hnone & Hbad & Hok).
  assert (Ht : ¬ (∃ p q, fileType textFile = (p +:+ "audio/mpeg" +:+ q)%string)).
  { intros H. apply includes_spec in H. discriminate H. }
  assert (Hn : ¬ (∃ p, fileName textFile = (p +:+ ".mp3")%string)).
  { intros H. apply endsWith_spec in H. discriminate H. }
  assert (Hm : (∃ p q, fileType mp3File = (p +:+ "audio/mpeg" +:+ q)%string) ∨
               (∃ p, fileName mp3File = (p +:+ ".mp3")%string)).
  { left. by exists "", "". }
  split; [by left|]. split; [exact Ht|]. split; [exact Hn|]. split; [exact Hm|].
  split; [apply Hnone; by left|]. split; [by apply Hbad | by apply Hok].
Defined.

(** X21. A file is chosen and the element reports its data loaded, on a
    browser that refuses nothing: the element holds the new URL, the URL it
    held before is revoked if it was an object URL, the element is wrapped,
    bound and connected to the analyser, and it is playing. *)
Theorem upload_then_loadeddata_plays host file rest url w a :
  (∀ c, throws host c = false) →
  includes "audio/mpeg" (fileType file) || endsWith ".mp3" (fileName file) = true →
  String.eqb url "" = false →
  mediaElementSourceCreated w = false → analyser w = Some a →
  let w1 := exec (onMp3UploaderChange host (Some (file :: rest)) url) w in
  let w2 := exec (audioLoadListener host) w1 in
  src (audioPlayer w1) = url ∧
  (String.prefix "blob:" (src (audioPlayer w)) = true →
   Did (RevokeObjectURL (src (audioPlayer w))) ∈ emitted w w1) ∧
  src (audioPlayer w2) = url ∧ paused (audioPlayer w2) = false ∧
  mp3Source w2 = Some (nextNode w) ∧ mediaElementSourceCreated w2 = true ∧
  inputsOf w2 = {[ nextNode w ]} ∪ inputsOf w ∧
  ctxState w2 ≠ suspended.
Proof.
  intros Hq Hfile Hurl Hc Han w1 w2.
  assert (E1 : w1 = exec (onMp3Selected host url) w).
  { subst w1. unfold exec, onMp3UploaderChange, onMp3Selected.
    apply orb_prop in Hfile as [-> | ->]; [done|].
    by destruct (includes "audio/mpeg" (fileType file)). }
  subst w2. rewrite E1. clear E1 w1 Hfile.
  destruct_world w. cbn in Hc, Han. subst mc an.
  unfold exec, inputsOf. cbn [audioPlayer src nextNode analyser].
  remember (onMp3Selected host url _) as p eqn:Hp.
  unfold onMp3Selected, ensureAudioContextActive in Hp.
  sym_with Hp; subst p; cbn [fst snd];
  remember (audioLoadListener host _) as p eqn:Hp;
  unfold audioLoadListener, setupAudioNodes, ensureAudioContextActive in Hp;
  sym_with Hp; subst p; cbn [fst snd];
    try (cbn in Han; discriminate Han).
  all: cbn [audioPlayer src paused mp3Source mediaElementSourceCreated analyser inputs ctxState].
  all: match goal with a0 : AnalyserNode |- _ =>
         destruct a0; destruct a; cbn in Han; injection Han as -> end.
  all: split_and!; try done.
  all: try match goal with
           | E : bool_decide (_ = suspended) = false |- _ ≠ _ =>
               by apply bool_decide_eq_false_1 in E
           end.
  all: intros Hpre.
  all: try (emitted_eval; apply list_elem_of_In; cbn; tauto).
  all: try congruence.
  all: match goal with
       | E : String.eqb _ "" = true |- _ =>
           apply String.eqb_eq in E; subst; discriminate Hpre
       end.
Qed.

(** X21 when a second file is chosen. *)
Lemma upload_then_loadeddata_plays_witness :
  (∀ c, throws quietHost c = false) ∧
  includes "audio/mpeg" (fileType mp3File)
    || endsWith ".mp3" (fileName mp3File) = true ∧
  String.eqb "blob:track-2" "" = false ∧
  mediaElementSourceCreated fileLoaded = false ∧
  analyser fileLoaded = Some {| fftSize := 2048; toDestination := true; inputs := ∅ |} ∧
  let w1 := exec (onMp3UploaderChange quietHost
                    (Some [mp3File])
                    "blob:track-2") fileLoaded in
  let w2 := exec (audioLoadListener quietHost) w1 in
  src (audioPlayer w1) = "blob:track-2" ∧
  (String.prefix "blob:" (src (audioPlayer fileLoaded)) = true →
   Did (RevokeObjectURL (src (audioPlayer fileLoaded))) ∈ emitted fileLoaded w1) ∧
  src (audioPlayer w2) = "blob:track-2" ∧ paused (audioPlayer w2) = false ∧
  mp3Source w2 = Some (nextNode fileLoaded) ∧ mediaElementSourceCreated w2 = true ∧
  inputsOf w2 = {[ nextNode fileLoaded ]} ∪ inputsOf fileLoaded ∧
  ctxState w2 ≠ suspended.
Proof.
  split_and!; [done | reflexivity | reflexivity | reflexivity | reflexivity |].
  exact (upload_then_loadeddata_plays quietHost
           mp3File [] "blob:track-2"
           fileLoaded _ (λ _, eq_refl) eq_refl eq_refl eq_refl eq_refl).
Defined.

(** X22. The [load] listener resumes the context without bothering the
    user: it never throws and never alerts, a rejection is only logged.  If
    the browser accepts, the context is running and a later
    [ensureAudioContextActive] has nothing to do: it makes no host call and
    cannot fail. *)
Theorem onWindowLoad_resumes_quietly host w :
  let w' := exec (onWindowLoad host) w in
  result (onWindowLoad host) w = Ok tt ∧
  if throws host Resume
  then w' = set_trace (ConsoleError "Failed to resume AudioContext:" :: trace w) w
  else w' = set_trace (Did Resume :: trace w) (set_ctxState running w) ∧
       ∀ host', ensureAudioContextActive host' w' =
                  (Ok tt, set_trace (Enter FnEnsureAudioContextActive :: trace w') w').
Proof.
  destruct_world w. unfold result, exec.
  remember (onWindowLoad host _) as p eqn:Hp. unfold onWindowLoad in Hp.
  sym Hp; subst p; cbn [fst snd]; (split; [reflexivity|]); [reflexivity|].
  split; [reflexivity|]. intros host'.
  remember (ensureAudioContextActive host' _) as p eqn:Hp.
  unfold ensureAudioContextActive in Hp. sym_with Hp. by subst p.
Qed.

(** ** References stay within the graph *)

Ltac wellFormed_tac :=
  match goal with
  | Hw : wellFormed _ |- wellFormed _ =>
      let Ha := fresh "Ha" in
      let a := fresh "a" in
      let Hfft := fresh "Hfft" in
      let Hin := fresh "Hin" in
      let Hso := fresh "Hso" in
      let Hms := fresh "Hms" in
      destruct Hw as ((a & Ha & Hfft) & Hin & Hso & Hms);
      unfold inputsOf in Hin;
      cbn [analyser nextNode source mp3Source mediaElementSourceCreated] in Ha, Hin, Hso, Hms;
      unfold wellFormed, inputsOf;
      cbn [analyser nextNode source mp3Source mediaElementSourceCreated inputs fftSize]
  end;
  first
    [ discriminate
    | repeat match goal with H : Some _ = Some _ |- _ => injection H as H end;
      subst;
      repeat match goal with
             | H : inputs <$> ?x = inputs <$> Some _ |- _ =>
                 destruct x as [[]|]; cbn in H; [injection H as -> | discriminate H]
             end;
      repeat match goal with a : AnalyserNode |- _ => destruct a end;
      cbn [analyser nextNode source mp3Source mediaElementSourceCreated inputs fftSize
           toDestination] in *;
      split_and!;
      first [ by eexists | intros ? ? ] ];
  try match goal with
      | Hso : (∀ n, ?s = Some n → n < _), H : ?s = Some _ |- _ => apply Hso in H
      | Hms : (∀ n, ?s = Some n → n < _ ∧ _), H : ?s = Some _ |- _ => apply Hms in H as [? ?]
      end;
  repeat match goal with
         | H : _ ∈ {[ _ ]} ∪ _ |- _ => apply elem_of_union in H as [->%elem_of_singleton | H]
         | H : _ ∈ _ ∖ _ |- _ => apply elem_of_difference in H as [H _]
         | H : Some _ = Some _ |- _ => injection H as ->
         | H : _ ∈ ∅ |- _ => by apply not_elem_of_empty in H
         end;
  try discriminate;
  try match goal with
      | Hin : (∀ n, n ∈ _ → n < _), H : _ ∈ _ |- _ => apply Hin in H
      | Hso : (∀ n, ?s = Some n → n < _), H : ?s = Some _ |- _ => apply Hso in H
      | Hms : (∀ n, ?s = Some n → n < _ ∧ _), H : ?s = Some _ |- _ => apply Hms in H as [? ?]
      end;
  try (split; [lia | done]); try lia;
  try match goal with
      | Hms : (∀ n, Some ?m = Some n → _ ∧ _) |- _ => destruct (Hms m eq_refl); lia
      | Hso : (∀ n, Some ?m = Some n → _ < _) |- _ => pose proof (Hso m eq_refl); lia
      end.

Lemma handle_run host ar (e : PageEvent) (w : World) :
  result (handle host ar e) w = Ok tt ∧
  (wellFormed w → wellFormed (exec (handle host ar e) w)).
Proof.
  destruct e; cbn [handle].
  - destruct_world w. unfold result, exec.
    remember (onPlayToneClick host ar frequency _) as p eqn:Hp.
    unfold onPlayToneClick, playTone, ensureAudioContextActive, ensureAnalyserOutput,
      createWhiteNoise, createPinkNoise in Hp.
    sym Hp; subst p; cbn [fst snd]; (split; [reflexivity | intros H; wellFormed_tac]).
  - destruct_world w. unfold result, exec.
    remember (onStopToneClick host _) as p eqn:Hp.
    unfold onStopToneClick in Hp.
    sym Hp; subst p; cbn [fst snd]; (split; [reflexivity | intros H; wellFormed_tac]).
  - destruct_world w. unfold result, exec.
    remember (onStopMp3Click host _) as p eqn:Hp.
    unfold onStopMp3Click, stopMp3 in Hp.
    sym Hp; subst p; cbn [fst snd]; (split; [reflexivity | intros H; wellFormed_tac]).
  - destruct_world w. unfold result, exec.
    remember (onClearMp3Click host _) as p eqn:Hp.
    unfold onClearMp3Click, clearMp3 in Hp.
    sym Hp; subst p; cbn [fst snd]; (split; [reflexivity | intros H; wellFormed_tac]).
  - destruct_world w. unfold result, exec.
    remember (onVisualizerChange host value _) as p eqn:Hp.
    unfold onVisualizerChange in Hp.
    sym Hp; subst p; cbn [fst snd]; (split; [reflexivity | intros H; wellFormed_tac]).
  - destruct_world w. unfold result, exec.
    remember (onMp3Selected host url _) as p eqn:Hp.
    unfold onMp3Selected, ensureAudioContextActive in Hp.
    sym Hp; subst p; cbn [fst snd]; (split; [reflexivity | intros H; wellFormed_tac]).
  - destruct_world w. unfold result, exec.
    remember (audioLoadListener host _) as p eqn:Hp.
    unfold audioLoadListener, setupAudioNodes, ensureAudioContextActive,
      ensureAnalyserOutput in Hp.
    sym Hp; subst p; cbn [fst snd]; (split; [reflexivity | intros H; wellFormed_tac]).
  - destruct_world w. unfold result, exec.
    remember (fireFrame host _) as p eqn:Hp.
    unfold fireFrame, draw in Hp.
    sym Hp; subst p; cbn [fst snd]; (split; [reflexivity | intros H; wellFormed_tac]).
Qed.


(** X24. No listener of the page lets an exception escape: the four
    buttons, the select, the uploader with and without its checks, the
    [loadeddata] listener, a frame of the visualizer and the [load] listener
    of the window all return normally, whatever the browser throws at them. *)
Theorem listeners_never_throw host ar (e : PageEvent) files url w :
  result (handle host ar e) w = Ok tt ∧
  result (onMp3UploaderChange host files url) w = Ok tt ∧
  result (onWindowLoad host) w = Ok tt.
Proof.
  split; [apply handle_run|]. split.
  - destruct_world w. unfold result.
    remember (onMp3UploaderChange host files url _) as p eqn:Hp.
    unfold onMp3UploaderChange, ensureAudioContextActive in Hp.
    destruct files as [[|file rest]|]; sym Hp; by subst p.
  - destruct_world w. unfold result.
    remember (onWindowLoad host _) as p eqn:Hp. unfold onWindowLoad in Hp.
    sym Hp; by subst p.
Qed.



(** ** One tone at a time *)









(** The condition on [stop()] cannot be dropped: when it throws, the old
    producer plays on while [source] moves to the new one, and two tones
    sound. *)
Lemma two_tones_when_stop_throws_example :
  let w := exec (playTone stopFailsHost exact (Finite (Qc_of_Z 880))) tonePlaying in
  source w = Some 1 ∧
  (started <$> nodes w !! 0 = Some true ∧ stopped <$> nodes w !! 0 = Some false) ∧
  (started <$> nodes w !! 1 = Some true ∧ stopped <$> nodes w !! 1 = Some false).
Proof. by vm_compute. Qed.

(** ** The canvas statements of a bar graph frame *)

(** Arithmetic on multiples of 1/2048. *)

Lemma dy_eq (q : Qc) (k : Z) : (q == k # 2048)%Q → q = dy k.
Proof.
  intros H. apply Qc_is_canon. unfold dy. cbn [this Q2Qc].
  eapply Qeq_trans; [exact H | symmetry; apply Qred_correct].
Qed.

Lemma dy_this (k : Z) : (dy k == k # 2048)%Q.
Proof. unfold dy. cbn [this Q2Qc]. apply Qred_correct. Qed.

Lemma dy_add (a b : Z) : (dy a + dy b)%Qc = dy (a + b).
Proof.
  apply dy_eq. unfold Qcplus. cbn [this Q2Qc].
  eapply Qeq_trans; [apply Qred_correct|].
  eapply Qeq_trans; [apply Qplus_comp; apply dy_this|].
  unfold Qeq, Qplus. cbn [Qnum Qden]. lia.
Qed.

Lemma dy_sub (a b : Z) : (dy a - dy b)%Qc = dy (a - b).
Proof.
  apply dy_eq. unfold Qcminus, Qcplus, Qcopp. cbn [this Q2Qc].
  eapply Qeq_trans; [apply Qred_correct|].
  eapply Qeq_trans;
    [apply Qplus_comp;
       [apply dy_this
       | eapply Qeq_trans; [apply Qred_correct | apply Qopp_comp; apply dy_this]]|].
  unfold Qeq, Qplus, Qopp. cbn [Qnum Qden]. lia.
Qed.

Lemma dy_of_Z (z : Z) : Qc_of_Z z = dy (2048 * z).
Proof.
  apply dy_eq. unfold Qc_of_Z. cbn [this Q2Qc].
  try (eapply Qeq_trans; [apply Qred_correct|]).
  unfold Qeq, inject_Z. cbn [Qnum Qden]. lia.
Qed.

Lemma dy_div (a c : Z) (p : positive) :
  (a * 2048 = c * Z.pos p)%Z → (dy a / dy (Z.pos p))%Qc = dy c.
Proof.
  intros H. apply dy_eq. unfold Qcdiv, Qcmult, Qcinv. cbn [this Q2Qc].
  eapply Qeq_trans; [apply Qred_correct|].
  eapply Qeq_trans;
    [apply Qmult_comp;
       [apply dy_this | eapply Qeq_trans; [apply Qred_correct | apply Qinv_comp; apply dy_this]]|].
  unfold Qeq, Qmult, Qinv. cbn [Qnum Qden]. nia.
Qed.

Lemma dy_1 : 1%Qc = dy 2048.
Proof. by apply Qc_is_canon. Qed.

Lemma dy_2 : 2%Qc = dy 4096.
Proof. by apply Qc_is_canon. Qed.

Lemma dy_0 : 0%Qc = dy 0.
Proof. by apply Qc_is_canon. Qed.

Lemma dy_half (d : Z) : (dy (2048 * d) / 2)%Qc = dy (1024 * d).
Proof. rewrite dy_2. apply dy_div. lia. Qed.

Lemma dy_div_1024 (w : Z) : (dy (2048 * w) / dy (2048 * 1024))%Qc = dy (2 * w).
Proof. change (2048 * 1024)%Z with (Z.pos 2097152). apply dy_div. lia. Qed.

Lemma dy_times_2_5 (w : Z) : (dy (2 * w) * dy 5120)%Qc = dy (5 * w).
Proof.
  apply dy_eq. unfold Qcmult. cbn [this Q2Qc].
  eapply Qeq_trans; [apply Qred_correct|].
  eapply Qeq_trans; [apply Qmult_comp; apply dy_this|].
  unfold Qeq, Qmult. cbn [Qnum Qden]. lia.
Qed.

Lemma dec_25_10 : dec 25 10 = dy 5120.
Proof. by apply Qc_is_canon. Qed.

Lemma dy_le (a b : Z) : (a ≤ b)%Z → (dy a ≤ dy b)%Qc.
Proof.
  intros H. unfold Qcle. 
  eapply Qle_trans; [apply Qle_lteq; right; apply dy_this|].
  eapply Qle_trans; [|apply Qle_lteq; right; symmetry; apply dy_this].
  unfold Qle. cbn [Qnum Qden]. lia.
Qed.

Lemma dy_mul_int (i a : Z) : (Qc_of_Z i * dy a)%Qc = dy (i * a).
Proof.
  apply dy_eq. unfold Qcmult, Qc_of_Z. cbn [this Q2Qc].
  eapply Qeq_trans; [apply Qred_correct|].
  eapply Qeq_trans; [apply Qmult_comp; [apply Qeq_refl | apply dy_this]|].
  unfold Qeq, Qmult, inject_Z. cbn [Qnum Qden]. lia.
Qed.

Section BarGraph.
Context (ar : Arith) (Hdy : dyadic ar).
Context (width height : Z) (barColor : string).
Context (Hwidth : (0 < width ≤ 32767)%Z) (Hheight : (0 ≤ height ≤ 32767)%Z).

Lemma dyadic_small (k : Z) :
  (-4294967296 ≤ k ≤ 4294967296)%Z → double ar (dy k) = dy k.
Proof.
  intros H. apply Hdy. apply Z.abs_le.
  change (2 ^ 53)%Z with 9007199254740992%Z. lia.
Qed.

Lemma barLoop_closed (dataArray : list nat) : ∀ j : nat,
  j + length dataArray ≤ 1024 → Forall (λ d, d ≤ 255) dataArray →
  barLoop ar (Qc_of_Z height) (dy (5 * width)) barColor dataArray
    (dy (Z.of_nat j * (5 * width + 2048))) =
  imap (λ i d,
          FillRect barColor (dy (Z.of_nat (j + i) * (5 * width + 2048)))
            (dy (2048 * height - 1024 * Z.of_nat d))
            (dy (5 * width)) (dy (1024 * Z.of_nat d)))
       dataArray.
Proof.
  induction dataArray as [|d rest IH]; intros j Hlen Hdata; [done|].
  cbn [length] in Hlen. apply Forall_cons in Hdata as [Hd Hrest].
  cbn [barLoop imap]. unfold fdiv, fsub, fadd, lit.
  rewrite dy_2, dy_1, !dy_of_Z.
  rewrite (dyadic_small 4096) by lia. rewrite <- dy_2, dy_half.
  rewrite (dyadic_small 2048) by lia.
  rewrite (dyadic_small (1024 * Z.of_nat d)) by lia.
  rewrite dy_sub, (dyadic_small (2048 * height - 1024 * Z.of_nat d)) by lia.
  rewrite dy_add, (dyadic_small (5 * width + 2048)) by lia.
  rewrite dy_add.
  rewrite (dyadic_small (Z.of_nat j * (5 * width + 2048) + (5 * width + 2048))) by nia.
  replace (Z.of_nat j * (5 * width + 2048) + (5 * width + 2048))%Z
    with (Z.of_nat (S j) * (5 * width + 2048))%Z by lia.
  rewrite Nat.add_0_r. f_equal.
  rewrite <- !dy_of_Z, (IH (S j)) by (done || lia).
  apply imap_ext. intros i x _. cbn. rewrite ?dy_of_Z. by rewrite Nat.add_succ_r.
Qed.

End BarGraph.

(** X26. One frame of the bar graph in closed form.  On a canvas whose
    width and height are integers up to 32767, with the 1024 bins of the
    analyser holding bytes, and on doubles (which hold the multiples of
    1/2048 of this size exactly, so that no operation of the loop rounds),
    the frame paints the whole canvas black and then one bar per bin, in
    the colour of the colour field: bar [i] has its left edge at
    [i * (barWidth + 1)] with [barWidth = width / 1024 * 2.5], its height
    is half the byte of its bin, at most 127.5, and it stands on the bottom
    edge.  From bin 410 on the left edge is at or beyond the right edge of
    the canvas: of the 1024 bins only the lowest 410 can be seen. *)
Theorem barFrame_layout ar (width height : Z) barColor dataArray :
  dyadic ar → (0 < width ≤ 32767)%Z → (0 ≤ height ≤ 32767)%Z →
  length dataArray = 1024 → Forall (λ d, d ≤ 255) dataArray →
  let W := Qc_of_Z width in
  let H := Qc_of_Z height in
  let barWidth := (W / Qc_of_Z 1024 * dec 25 10)%Qc in
  let x (i : nat) := (Qc_of_Z (Z.of_nat i) * (barWidth + 1))%Qc in
  let half (d : nat) := (Qc_of_Z (Z.of_nat d) / 2)%Qc in
  barFrame ar width height barColor dataArray =
    FillRect "rgb(0, 0, 0)" 0 0 W H
    :: imap (λ i d, FillRect barColor (x i) (H - half d) barWidth (half d)) dataArray ∧
  (∀ i, 410 ≤ i → (W ≤ x i)%Qc) ∧
  (∀ d, d ≤ 255 → (0 ≤ half d)%Qc ∧ (half d ≤ dec 1275 10)%Qc).
Proof.
  intros Hdy Hw Hh Hlen Hdata W H barWidth x half.
  assert (EW : barWidth = dy (5 * width)).
  { subst barWidth W. rewrite !dy_of_Z, dec_25_10.
    change (2048 * 1024)%Z with (Z.pos 2097152).
    rewrite (dy_div (2048 * width) (2 * width) 2097152) by lia. apply dy_times_2_5. }
  assert (Ex : ∀ i, x i = dy (Z.of_nat i * (5 * width + 2048))).
  { intros i. subst x. cbn beta. rewrite EW, dy_1, dy_add. apply dy_mul_int. }
  assert (Eh : ∀ d, half d = dy (1024 * Z.of_nat d)).
  { intros d. subst half. cbn beta. rewrite dy_of_Z. apply dy_half. }
  split_and!.
  - unfold barFrame. subst W H. f_equal.
    unfold fmul, fdiv, lit. rewrite Hlen.
    change (Z.of_nat 1024) with 1024%Z.
    rewrite dec_25_10, !dy_of_Z.
    change (2048 * 1024)%Z with (Z.pos 2097152).
    rewrite (dy_div (2048 * width) (2 * width) 2097152) by lia.
    rewrite (dyadic_small ar Hdy (2 * width)) by lia.
    rewrite (dyadic_small ar Hdy 5120) by lia.
    rewrite dy_times_2_5, (dyadic_small ar Hdy (5 * width)) by lia.
    rewrite <- (dy_of_Z height).
    pose proof (barLoop_closed ar Hdy width height barColor Hw Hh dataArray 0) as Hloop.
    rewrite Hlen in Hloop. specialize (Hloop ltac:(lia) Hdata).
    change (Z.of_nat 0 * (5 * width + 2048))%Z with 0%Z in Hloop.
    rewrite dy_0, Hloop.
    apply imap_ext. intros i d _. cbn beta.
    rewrite Ex, Eh, EW. by rewrite (dy_of_Z height), dy_sub.
  - intros i Hi. rewrite Ex. subst W. rewrite dy_of_Z. apply dy_le. nia.
  - intros d Hd. rewrite Eh. split.
    + rewrite dy_0. apply dy_le. lia.
    + replace (dec 1275 10) with (dy 261120) by (by apply Qc_is_canon).
      apply dy_le. lia.
Qed.

Lemma dyadic_exact : dyadic exact.
Proof. by intros k _. Defined.

(** X26 on a canvas of 800 by 300 with every bin at 128. *)
Lemma barFrame_layout_witness :
  dyadic exact ∧ (0 < 800 ≤ 32767)%Z ∧ (0 ≤ 300 ≤ 32767)%Z ∧
  length (replicate 1024 128) = 1024 ∧ Forall (λ d, d ≤ 255) (replicate 1024 128) ∧
  let W := Qc_of_Z 800 in
  let H := Qc_of_Z 300 in
  let barWidth := (W / Qc_of_Z 1024 * dec 25 10)%Qc in
  let x (i : nat) := (Qc_of_Z (Z.of_nat i) * (barWidth + 1))%Qc in
  let half (d : nat) := (Qc_of_Z (Z.of_nat d) / 2)%Qc in
  barFrame exact 800 300 "#00ff00" (replicate 1024 128) =
    FillRect "rgb(0, 0, 0)" 0 0 W H
    :: imap (λ i d, FillRect "#00ff00" (x i) (H - half d) barWidth (half d))
         (replicate 1024 128) ∧
  (∀ i, 410 ≤ i → (W ≤ x i)%Qc) ∧
  (∀ d, d ≤ 255 → (0 ≤ half d)%Qc ∧ (half d ≤ dec 1275 10)%Qc).
Proof.
  assert (H1 : (0 < 800 ≤ 32767)%Z) by lia.
  assert (H2 : (0 ≤ 300 ≤ 32767)%Z) by lia.
  assert (H3 : length (replicate 1024 128) = 1024) by apply length_replicate.
  assert (H4 : Forall (λ d, d ≤ 255) (replicate 1024 128)).
  { apply Forall_replicate. lia. }
  split; [exact dyadic_exact|]. split; [exact H1|]. split; [exact H2|].
  split; [exact H3|]. split; [exact H4|].
  exact (barFrame_layout exact 800 300 "#00ff00" (replicate 1024 128)
           dyadic_exact H1 H2 H3 H4).
Defined.
